(** * rotas: the Carris Metropolitana route viewer (src/src/App.tsx)

    A shallow embedding of the component's data handling: the GeoJSON to GPX
    conversion [geojsonToGpx], the headsign split [getRouteEndpoints], and
    the handlers [searchRoute], [fetchPattern] and [downloadGPX] of [App],
    with the asynchronous parts written as a transition system over the
    component's state and its suspended continuations. *)

From Stdlib Require Import List NArith Bool Arith Lia.
From Stdlib Require Import Ascii String DecimalString.
Import ListNotations.

Set Implicit Arguments.

(** ** Strings

    A JavaScript string is a sequence of UTF-16 code units. *)

Definition code_unit := N.
Definition jsstring := list code_unit.

(** The string of an ASCII literal of the source. *)
Definition js (s : string) : jsstring :=
  map N_of_ascii (list_ascii_of_string s).

Definition quote : jsstring := [34%N].
Definition newline : jsstring := [10%N].

Fixpoint str_eqb (a b : jsstring) : bool :=
  match a, b with
  | [], [] => true
  | x :: a', y :: b' => N.eqb x y && str_eqb a' b'
  | _, _ => false
  end.

(** [Array.prototype.join] on an array of strings. *)
Fixpoint join (sep : jsstring) (parts : list jsstring) : jsstring :=
  match parts with
  | [] => []
  | [p] => p
  | p :: rest => p ++ sep ++ join sep rest
  end.

(** The decimal numeral of an array index, as a property key. *)
Definition decimal (n : nat) : jsstring :=
  js (NilEmpty.string_of_uint (Nat.to_uint n)).

(** ** Values

    The payloads are typed [any] in the source: a value is whatever
    [Response.json] can yield, or [undefined].  The type of numbers is left
    open; the program only ever renders a number or tests its truthiness. *)

#[local] Set Warnings "-register-all".

Inductive value (number : Type) : Type :=
| VUndefined
| VNull
| VBool (b : bool)
| VNum (n : number)
| VStr (s : jsstring)
| VArr (items : list (value number))
| VObj (members : list (jsstring * value number)).

Arguments VUndefined {number}.
Arguments VNull {number}.
Arguments VBool {number} b.
Arguments VNum {number} n.
Arguments VStr {number} s.
Arguments VArr {number} items.
Arguments VObj {number} members.

(** What the model takes from the JavaScript engine rather than from the
    source: IEEE doubles with [Number::toString] and [ToBoolean]; the
    property key [ToString(ToNumber(v) - 1)] that [x[x.length - 1]] reads on
    an array-like object whose [length] member is [v]; and the text of a
    [TypeError]'s message. *)
Class Runtime : Type := {
  number : Type;
  number_to_string : number -> jsstring;
  number_truthy : number -> bool;
  length_minus_one_key : value number -> jsstring;
  type_error_message : jsstring;
}.

(** Exceptions: [new Error(message)] thrown by the source, and the
    [TypeError] of reading a property of [null] or [undefined] or calling
    what is no function. *)
Inductive exn : Type :=
| Error (message : jsstring)
| TypeError.

Inductive result (A : Type) : Type :=
| Ok (a : A)
| Throw (e : exn).

Arguments Ok {A} a.
Arguments Throw {A} e.

Definition bind {A B : Type} (r : result A) (k : A -> result B) : result B :=
  match r with
  | Ok a => k a
  | Throw e => Throw e
  end.

Notation "x <- r ;; k" := (bind r (fun x => k))
  (at level 61, r at next level, right associativity).

Fixpoint mapM {A B : Type} (f : A -> result B) (l : list A) : result (list B) :=
  match l with
  | [] => Ok []
  | x :: rest => y <- f x ;; ys <- mapM f rest ;; Ok (y :: ys)
  end.

Abbreviation val := (value number).

Section Primitives.
Context `{Runtime}.

Definition nullish (v : val) : bool :=
  match v with
  | VUndefined | VNull => true
  | _ => false
  end.

(** [ToBoolean]. *)
Definition truthy (v : val) : bool :=
  match v with
  | VUndefined | VNull => false
  | VBool b => b
  | VNum n => number_truthy n
  | VStr s => match s with [] => false | _ => true end
  | VArr _ | VObj _ => true
  end.

(** [ToString], as a template literal applies it to an interpolated value. *)
Fixpoint to_string (v : val) : jsstring :=
  match v with
  | VUndefined => js "undefined"
  | VNull => js "null"
  | VBool true => js "true"
  | VBool false => js "false"
  | VNum n => number_to_string n
  | VStr s => s
  | VArr items =>
      join (js ",")
        (map (fun x => if nullish x then [] else to_string x) items)
  | VObj _ => js "[object Object]"
  end.

Fixpoint lookup (key : jsstring) (members : list (jsstring * val)) : val :=
  match members with
  | [] => VUndefined
  | (k, v) :: rest => if str_eqb k key then v else lookup key rest
  end.

(** [v.name] for the member names the source reads ([type], [features],
    [geometry], [coordinates], [properties], [name], [geojson], [headsign],
    [short_name], [patterns], [route_id], [long_name], [shape_id]): none of
    them is a property of a primitive's or an array's prototype. *)
Definition prop (v : val) (name : jsstring) : result val :=
  match v with
  | VUndefined | VNull => Throw TypeError
  | VObj members => Ok (lookup name members)
  | _ => Ok VUndefined
  end.

(** [v[i]] for a literal index [i]. *)
Definition item (v : val) (i : nat) : result val :=
  match v with
  | VUndefined | VNull => Throw TypeError
  | VArr items => Ok (nth i items VUndefined)
  | VStr s =>
      Ok (match nth_error s i with
          | Some u => VStr [u]
          | None => VUndefined
          end)
  | VObj members => Ok (lookup (decimal i) members)
  | _ => Ok VUndefined
  end.

(** [v[v.length - 1]]: the last element of an array or string ([undefined]
    when it is empty: index [-1]); a number or boolean has no [length], and
    the key [NaN] finds nothing. *)
Definition last_item (v : val) : result val :=
  match v with
  | VUndefined | VNull => Throw TypeError
  | VArr items => Ok (last items VUndefined)
  | VStr s =>
      Ok (match rev s with
          | u :: _ => VStr [u]
          | [] => VUndefined
          end)
  | VObj members =>
      Ok (lookup (length_minus_one_key (lookup (js "length") members)) members)
  | _ => Ok VUndefined
  end.

(** [v === "literal"]. *)
Definition is_string (v : val) (literal : jsstring) : bool :=
  match v with
  | VStr s => str_eqb s literal
  | _ => false
  end.

(** [v.map(f)]: only an array has the method. *)
Definition array_map {B : Type} (v : val) (f : val -> result B) : result (list B) :=
  match v with
  | VArr items => mapM f items
  | _ => Throw TypeError
  end.

End Primitives.

(** ** String methods used by the handlers *)

(** [WhiteSpace] and [LineTerminator] code points: what [trim] strips and
    what the regular expression class [\s] matches. *)
Definition is_whitespace (u : code_unit) : bool :=
  ((9 <=? u) && (u <=? 13) || (u =? 32) || (u =? 160) || (u =? 5760)
   || (8192 <=? u) && (u <=? 8202) || (u =? 8232) || (u =? 8233)
   || (u =? 8239) || (u =? 8287) || (u =? 12288) || (u =? 65279))%N.

Fixpoint trim_start (s : jsstring) : jsstring :=
  match s with
  | u :: rest => if is_whitespace u then trim_start rest else s
  | [] => []
  end.

(** [String.prototype.trim]. *)
Definition trim (s : jsstring) : jsstring :=
  rev (trim_start (rev (trim_start s))).

(** [s.replace(/\s+/g, '-')]: every maximal run of whitespace becomes one
    hyphen.  [in_run] says that the unit before was whitespace. *)
Fixpoint replace_runs (in_run : bool) (s : jsstring) : jsstring :=
  match s with
  | [] => []
  | u :: rest =>
      if is_whitespace u
      then (if in_run then replace_runs true rest
            else 45%N :: replace_runs true rest)
      else u :: replace_runs false rest
  end.

Definition replace_whitespace (s : jsstring) : jsstring := replace_runs false s.

Fixpoint starts_with (prefix s : jsstring) : bool :=
  match prefix, s with
  | [], _ => true
  | p :: prefix', u :: s' => N.eqb p u && starts_with prefix' s'
  | _ :: _, [] => false
  end.

(** The scan of [String.prototype.split] for a separator that is not empty:
    [segment] is the text since the last separator, and [skip] counts the
    units of a separator just matched that are still to be passed over. *)
Fixpoint split_scan (sep : jsstring) (skip : nat) (segment s : jsstring)
  : list jsstring :=
  match s with
  | [] => [segment]
  | u :: rest =>
      match skip with
      | S k => split_scan sep k segment rest
      | O =>
          if starts_with sep s
          then segment :: split_scan sep (List.length sep - 1) [] rest
          else split_scan sep 0 (segment ++ [u]) rest
      end
  end.

(** [s.split(sep)]; an empty separator splits between all code units. *)
Definition split (sep s : jsstring) : list jsstring :=
  match sep with
  | [] => map (fun u => [u]) s
  | _ :: _ => split_scan sep 0 [] s
  end.

(** ** getRouteEndpoints (App.tsx, lines 181-187) *)

Record endpoints : Type := {
  origin : jsstring;
  destination : jsstring;
}.

Definition delimiter : jsstring := js " - ".

(** [parts[0]] and [parts[parts.length - 1]]: a split by a separator that is
    not empty has at least one part, so neither is [undefined]. *)
Definition getRouteEndpoints (headsign : jsstring) : endpoints :=
  let parts := split delimiter headsign in
  {| origin := hd [] parts;
     destination := last parts [] |}.

(** ** geojsonToGpx (App.tsx, lines 60-110) *)

Definition quoted (s : jsstring) : jsstring := quote ++ s ++ quote.

Definition invalid_geojson_message : jsstring :=
  js "GeoJSON inv" ++ [225%N] ++ js "lido. Certifique-se de que " ++ [233%N]
  ++ js " um FeatureCollection.".

Definition missing_coordinates_message : jsstring :=
  js "Coordenadas de in" ++ [237%N] ++ js "cio ou fim n" ++ [227%N]
  ++ js "o encontradas.".

Definition gpxHeader : jsstring :=
  js "<?xml version=" ++ quoted (js "1.0") ++ js " encoding="
  ++ quoted (js "UTF-8") ++ js "?>" ++ newline
  ++ js "<gpx version=" ++ quoted (js "1.1") ++ js " creator="
  ++ quoted (js "CustomConverter") ++ js " xmlns="
  ++ quoted (js "http://www.topografix.com/GPX/1/1") ++ js ">" ++ newline.

Definition gpxFooter : jsstring := js "</gpx>".

Section Exporter.
Context `{Runtime}.

(** One [<wpt>] element of the waypoints template, with the line break that
    follows it. *)
Definition wpt (lon lat : val) (name : jsstring) : jsstring :=
  js "<wpt lon=" ++ quoted (to_string lon) ++ js " lat="
  ++ quoted (to_string lat) ++ js ">" ++ newline
  ++ js "  <name>" ++ name ++ js "</name>" ++ newline
  ++ js "</wpt>" ++ newline.

Definition trkpt (lon lat : val) : jsstring :=
  js "<trkpt lon=" ++ quoted (to_string lon) ++ js " lat="
  ++ quoted (to_string lat) ++ js "></trkpt>".

(** [geojson.features[0]?.geometry.coordinates]: [None] when the optional
    chain stops at a missing first feature. *)
Definition first_coordinates (geojson : val) : result (option val) :=
  features <- prop geojson (js "features") ;;
  first <- item features 0 ;;
  if nullish first then Ok None
  else
    geometry <- prop first (js "geometry") ;;
    coordinates <- prop geometry (js "coordinates") ;;
    Ok (Some coordinates).

Definition waypoints (geojson : val) (origin destination : jsstring)
  : result jsstring :=
  firstCoord <-
    (chain <- first_coordinates geojson ;;
     match chain with
     | None => Ok VUndefined
     | Some coordinates => item coordinates 0
     end) ;;
  lastCoord <-
    (chain <- first_coordinates geojson ;;
     match chain with
     | None => Ok VUndefined
     | Some coordinates => last_item coordinates
     end) ;;
  if negb (truthy firstCoord) || negb (truthy lastCoord)
  then Throw (Error missing_coordinates_message)
  else
    lon1 <- item firstCoord 0 ;;
    lat1 <- item firstCoord 1 ;;
    lon2 <- item lastCoord 0 ;;
    lat2 <- item lastCoord 1 ;;
    Ok (newline ++ wpt lon1 lat1 origin ++ wpt lon2 lat2 destination).

Definition track_point (coord : val) : result jsstring :=
  lon <- item coord 0 ;;
  lat <- item coord 1 ;;
  Ok (trkpt lon lat).

(** [feature.properties?.name || "Rota"], as the template renders it. *)
Definition track_name (feature : val) : result jsstring :=
  properties <- prop feature (js "properties") ;;
  name <- (if nullish properties then Ok VUndefined
           else prop properties (js "name")) ;;
  Ok (if truthy name then to_string name else js "Rota").

(** The callback of [geojson.features.map]. *)
Definition track (feature : val) : result jsstring :=
  geometry <- prop feature (js "geometry") ;;
  type <- prop geometry (js "type") ;;
  if is_string type (js "LineString")
  then
    coordinates <- prop geometry (js "coordinates") ;;
    points <- array_map coordinates track_point ;;
    name <- track_name feature ;;
    Ok (js "<trk><name>" ++ name ++ js "</name><trkseg>"
        ++ join newline points ++ js "</trkseg></trk>")
  else Ok [].

Definition gpxBody (geojson : val) : result jsstring :=
  features <- prop geojson (js "features") ;;
  tracks <- array_map features track ;;
  Ok (join newline tracks).

Definition geojsonToGpx (geojson : val) (origin destination : jsstring)
  : result jsstring :=
  type <- (if truthy geojson then prop geojson (js "type") else Ok VUndefined) ;;
  if negb (truthy geojson) || negb (is_string type (js "FeatureCollection"))
  then Throw (Error invalid_geojson_message)
  else
    points <- waypoints geojson origin destination ;;
    body <- gpxBody geojson ;;
    Ok (gpxHeader ++ points ++ body ++ gpxFooter).

End Exporter.

(** ** The component's state (App.tsx, lines 113-119) *)

Section Component.
Context `{Runtime}.

Record state : Type := {
  routeNumber : jsstring;
  routeDetails : val;
  patterns : list val;
  selectedPattern : val;
  shapeData : val;
  loading : bool;
  error : jsstring;
}.

Definition initial_state : state :=
  {| routeNumber := []; routeDetails := VNull; patterns := [];
     selectedPattern := VNull; shapeData := VNull; loading := false;
     error := [] |}.

Definition setRouteNumber (s : jsstring) (st : state) : state :=
  {| routeNumber := s; routeDetails := routeDetails st;
     patterns := patterns st; selectedPattern := selectedPattern st;
     shapeData := shapeData st; loading := loading st; error := error st |}.

Definition setRouteDetails (v : val) (st : state) : state :=
  {| routeNumber := routeNumber st; routeDetails := v;
     patterns := patterns st; selectedPattern := selectedPattern st;
     shapeData := shapeData st; loading := loading st; error := error st |}.

Definition setPatterns (l : list val) (st : state) : state :=
  {| routeNumber := routeNumber st; routeDetails := routeDetails st;
     patterns := l; selectedPattern := selectedPattern st;
     shapeData := shapeData st; loading := loading st; error := error st |}.

Definition setSelectedPattern (v : val) (st : state) : state :=
  {| routeNumber := routeNumber st; routeDetails := routeDetails st;
     patterns := patterns st; selectedPattern := v;
     shapeData := shapeData st; loading := loading st; error := error st |}.

Definition setShapeData (v : val) (st : state) : state :=
  {| routeNumber := routeNumber st; routeDetails := routeDetails st;
     patterns := patterns st; selectedPattern := selectedPattern st;
     shapeData := v; loading := loading st; error := error st |}.

Definition setLoading (b : bool) (st : state) : state :=
  {| routeNumber := routeNumber st; routeDetails := routeDetails st;
     patterns := patterns st; selectedPattern := selectedPattern st;
     shapeData := shapeData st; loading := b; error := error st |}.

Definition setError (e : jsstring) (st : state) : state :=
  {| routeNumber := routeNumber st; routeDetails := routeDetails st;
     patterns := patterns st; selectedPattern := selectedPattern st;
     shapeData := shapeData st; loading := loading st; error := e |}.

(** [err instanceof Error ? err.message : ...]: every exception of the model
    is an [Error]. *)
Definition exn_message (e : exn) : jsstring :=
  match e with
  | Error message => message
  | TypeError => type_error_message
  end.

(** ** The remote API

    [fetch] answers a request with a response that carries a status flag and
    a JSON document; the answer depends on the URL only. *)

Record response : Type := {
  ok : bool;
  json : val;
}.

Definition network : Type := jsstring -> response.

Definition api : jsstring := js "https://api.carrismetropolitana.pt/".
Definition lines_url (routeNumber : jsstring) : jsstring :=
  api ++ js "lines/" ++ routeNumber.
Definition patterns_url (patternId : val) : jsstring :=
  api ++ js "patterns/" ++ to_string patternId.
Definition routes_url (route_id : val) : jsstring :=
  api ++ js "routes/" ++ to_string route_id.
Definition shapes_url (shape_id : val) : jsstring :=
  api ++ js "shapes/" ++ to_string shape_id.

Definition empty_route_number_message : jsstring :=
  js "Por favor, insira o n" ++ [250%N] ++ js "mero da rota.".
Definition route_not_found_message : jsstring :=
  js "Rota n" ++ [227%N] ++ js "o encontrada".
Definition pattern_error_message (patternId : val) : jsstring :=
  js "Erro ao carregar o padr" ++ [227%N] ++ js "o " ++ to_string patternId.
Definition route_error_message (route_id : val) : jsstring :=
  js "Erro ao carregar a rota " ++ to_string route_id.
Definition shape_error_message : jsstring := js "Erro ao carregar o shape".
Definition nothing_selected_message : jsstring :=
  js "Nenhum padr" ++ [227%N] ++ js "o selecionado ou dados de forma indispon"
  ++ [237%N] ++ js "veis.".
Definition gpx_failure_message : jsstring := js "Erro ao gerar arquivo GPX".

(** ** The pattern fan-out of searchRoute (App.tsx, lines 143-160) *)

(** The own enumerable properties an object spread copies. *)
Definition spread (v : val) : list (jsstring * val) :=
  match v with
  | VObj members => members
  | VArr items => combine (map decimal (seq 0 (List.length items))) items
  | VStr s =>
      combine (map decimal (seq 0 (List.length s))) (map (fun u => VStr [u]) s)
  | _ => []
  end.

(** Writing a member of an object literal under construction: an existing
    key keeps its place and takes the new value. *)
Fixpoint assign (key : jsstring) (v : val) (members : list (jsstring * val))
  : list (jsstring * val) :=
  match members with
  | [] => [(key, v)]
  | (k, old) :: rest =>
      if str_eqb k key then (k, v) :: rest else (k, old) :: assign key v rest
  end.

(** [{...patternData, route_long_name: routeData.long_name,
      long_name: routeData.long_name}]. *)
Definition enrich (patternData routeData : val) : result val :=
  name1 <- prop routeData (js "long_name") ;;
  name2 <- prop routeData (js "long_name") ;;
  Ok (VObj (assign (js "long_name") name2
              (assign (js "route_long_name") name1 (spread patternData)))).

(** The callback of [data.patterns.map], with every [await] passed through:
    what one pattern identifier resolves to. *)
Definition resolve_pattern (net : network) (patternId : val) : result val :=
  let patternResponse := net (patterns_url patternId) in
  if negb (ok patternResponse)
  then Throw (Error (pattern_error_message patternId))
  else
    let patternData := json patternResponse in
    route_id <- prop patternData (js "route_id") ;;
    let routeResponse := net (routes_url route_id) in
    if negb (ok routeResponse)
    then Throw (Error (route_error_message route_id))
    else enrich patternData (json routeResponse).

(** The same callback as the event loop runs it: a task is suspended at one
    of its four [await]s or settled. *)
Inductive task : Type :=
| PatternFetch (patternId : val)
| PatternJson (patternResponse : response)
| RouteFetch (patternData : val) (url : jsstring)
| RouteJson (patternData : val) (routeResponse : response)
| Settled (outcome : result val).

(** Resuming a task at its [await]: the next state and the request it
    issues on the way, if any. *)
Definition advance (net : network) (t : task) : task * list jsstring :=
  match t with
  | PatternFetch patternId =>
      let patternResponse := net (patterns_url patternId) in
      if negb (ok patternResponse)
      then (Settled (Throw (Error (pattern_error_message patternId))), [])
      else (PatternJson patternResponse, [])
  | PatternJson patternResponse =>
      let patternData := json patternResponse in
      match prop patternData (js "route_id") with
      | Throw e => (Settled (Throw e), [])
      | Ok route_id =>
          (RouteFetch patternData (routes_url route_id), [routes_url route_id])
      end
  | RouteFetch patternData url =>
      let routeResponse := net url in
      if negb (ok routeResponse)
      then
        match prop patternData (js "route_id") with
        | Throw e => (Settled (Throw e), [])
        | Ok route_id =>
            (Settled (Throw (Error (route_error_message route_id))), [])
        end
      else (RouteJson patternData routeResponse, [])
  | RouteJson patternData routeResponse =>
      (Settled (enrich patternData (json routeResponse)), [])
  | Settled outcome => (Settled outcome, [])
  end.

(** [Promise.all] over the tasks: [joined] is its settlement, the first
    rejection or, once every task is fulfilled, the values in task order. *)
Record pool : Type := {
  tasks : list task;
  joined : option (result (list val));
}.

Definition fulfilled_value (t : task) : option val :=
  match t with
  | Settled (Ok v) => Some v
  | _ => None
  end.

Fixpoint all_fulfilled (ts : list task) : option (list val) :=
  match ts with
  | [] => Some []
  | t :: rest =>
      match fulfilled_value t, all_fulfilled rest with
      | Some v, Some vs => Some (v :: vs)
      | _, _ => None
      end
  end.

Definition settle (ts : list task) (resumed : task) : option (result (list val)) :=
  match resumed with
  | Settled (Throw e) => Some (Throw e)
  | _ => option_map Ok (all_fulfilled ts)
  end.

Fixpoint replace_nth {A : Type} (i : nat) (x : A) (l : list A) : list A :=
  match l, i with
  | [], _ => []
  | _ :: rest, O => x :: rest
  | y :: rest, S j => y :: replace_nth j x rest
  end.

Definition is_settled (t : task) : bool :=
  match t with
  | Settled _ => true
  | _ => false
  end.

(** The event loop resumes task [i] of the pool. *)
Definition pool_step (net : network) (p : pool) (i : nat) : pool * list jsstring :=
  match nth_error (tasks p) i with
  | None => (p, [])
  | Some t =>
      if is_settled t then (p, [])
      else
        let (t', sent) := advance net t in
        let ts := replace_nth i t' (tasks p) in
        ({| tasks := ts;
            joined := match joined p with
                      | Some r => Some r
                      | None => settle ts t'
                      end |}, sent)
  end.

(** [Promise.all(data.patterns.map(async ...))]: every callback runs to its
    first [await], which issues all the pattern requests in order. *)
Definition start_pool (patternIds : list val) : pool * list jsstring :=
  let ts := map PatternFetch patternIds in
  ({| tasks := ts; joined := option_map Ok (all_fulfilled ts) |},
   map patterns_url patternIds).

Definition pool_run (net : network) (p : pool) (schedule : list nat) : pool :=
  fold_left (fun q i => fst (pool_step net q i)) schedule p.

End Component.

(** ** The handlers of App and the event loop *)

Section Application.
Context `{Runtime}.

(** An asynchronous handler suspended at an [await]. *)
Inductive pending : Type :=
| SearchLine (url : jsstring)
| SearchLineJson (lineResponse : response)
| SearchPatterns (fanout : pool)
| ShapeFetch (url : jsstring)
| ShapeJson (shapeResponse : response).

(** What a handler does besides updating the state. *)
Inductive effect : Type :=
| Download (filename content : jsstring)
| ConsoleError (e : exn).

Record app : Type := {
  ui : state;
  suspended : list pending;
  requests : list jsstring;
  effects : list effect;
}.

Definition initial_app : app :=
  {| ui := initial_state; suspended := []; requests := []; effects := [] |}.

Definition with_ui (st : state) (a : app) : app :=
  {| ui := st; suspended := suspended a; requests := requests a;
     effects := effects a |}.

Fixpoint remove_nth {A : Type} (k : nat) (l : list A) : list A :=
  match l, k with
  | [], _ => []
  | _ :: rest, O => rest
  | x :: rest, S j => x :: remove_nth j rest
  end.

(** *** searchRoute (App.tsx, lines 121-167) *)

(** The handler up to its first [await]. *)
Definition searchRoute (a : app) : app :=
  let st := ui a in
  if negb (truthy (VStr (trim (routeNumber st))))
  then with_ui (setError empty_route_number_message st) a
  else
    let url := lines_url (routeNumber st) in
    {| ui := setPatterns []
               (setShapeData VNull
                  (setSelectedPattern VNull
                     (setRouteDetails VNull
                        (setError [] (setLoading true st)))));
       suspended := suspended a ++ [SearchLine url];
       requests := requests a ++ [url];
       effects := effects a |}.

(** The end of the [try]: [setPatterns] or the [catch], then [finally]. *)
Definition finish_search (outcome : result (list val)) (st : state) : state :=
  setLoading false
    match outcome with
    | Ok patternsData => setPatterns patternsData st
    | Throw e => setError (exn_message e) st
    end.

Definition resume_search_line (net : network) (url : jsstring) (k : nat) (a : app)
  : app :=
  let response := net url in
  if negb (ok response)
  then
    {| ui := finish_search (Throw (Error route_not_found_message)) (ui a);
       suspended := remove_nth k (suspended a);
       requests := requests a; effects := effects a |}
  else
    {| ui := ui a;
       suspended := replace_nth k (SearchLineJson response) (suspended a);
       requests := requests a; effects := effects a |}.

Definition resume_search_json (lineResponse : response) (k : nat) (a : app)
  : app :=
  let data := json lineResponse in
  let st := setRouteDetails data (ui a) in
  match (ids <- prop data (js "patterns") ;; array_map ids (fun id => Ok id)) with
  | Throw e =>
      {| ui := finish_search (Throw e) st;
         suspended := remove_nth k (suspended a);
         requests := requests a; effects := effects a |}
  | Ok patternIds =>
      let (fanout, sent) := start_pool patternIds in
      match joined fanout with
      | Some outcome =>
          {| ui := finish_search outcome st;
             suspended := remove_nth k (suspended a);
             requests := requests a ++ sent; effects := effects a |}
      | None =>
          {| ui := st;
             suspended := replace_nth k (SearchPatterns fanout) (suspended a);
             requests := requests a ++ sent; effects := effects a |}
      end
  end.

Definition resume_search_patterns (net : network) (fanout : pool) (k i : nat)
  (a : app) : app :=
  let (fanout', sent) := pool_step net fanout i in
  {| ui := match joined fanout, joined fanout' with
           | None, Some outcome => finish_search outcome (ui a)
           | _, _ => ui a
           end;
     suspended := replace_nth k (SearchPatterns fanout') (suspended a);
     requests := requests a ++ sent; effects := effects a |}.

(** *** fetchPattern (App.tsx, lines 169-179) *)

Definition fetchPattern (pattern : val) (a : app) : app :=
  let st := setSelectedPattern pattern (ui a) in
  match prop pattern (js "shape_id") with
  | Throw e => with_ui (setError (exn_message e) st) a
  | Ok shape_id =>
      {| ui := st;
         suspended := suspended a ++ [ShapeFetch (shapes_url shape_id)];
         requests := requests a ++ [shapes_url shape_id];
         effects := effects a |}
  end.

Definition resume_shape_fetch (net : network) (url : jsstring) (k : nat) (a : app)
  : app :=
  let shapeResponse := net url in
  if negb (ok shapeResponse)
  then
    {| ui := setError shape_error_message (ui a);
       suspended := remove_nth k (suspended a);
       requests := requests a; effects := effects a |}
  else
    {| ui := ui a;
       suspended := replace_nth k (ShapeJson shapeResponse) (suspended a);
       requests := requests a; effects := effects a |}.

Definition resume_shape_json (shapeResponse : response) (k : nat) (a : app) : app :=
  {| ui := setShapeData (json shapeResponse) (ui a);
     suspended := remove_nth k (suspended a);
     requests := requests a; effects := effects a |}.

(** *** downloadGPX (App.tsx, lines 189-226) *)

Definition download_point (coord : val) : result jsstring :=
  lat <- item coord 1 ;;
  lon <- item coord 0 ;;
  Ok (js "      <trkpt lat=" ++ quoted (to_string lat) ++ js " lon="
      ++ quoted (to_string lon) ++ js "></trkpt>").

Definition gpxData (selectedPattern shapeData : val) : result jsstring :=
  headsign <- prop selectedPattern (js "headsign") ;;
  geojson <- prop shapeData (js "geojson") ;;
  geometry <- prop geojson (js "geometry") ;;
  coordinates <- prop geometry (js "coordinates") ;;
  points <- array_map coordinates download_point ;;
  Ok (trim
        (js "<?xml version=" ++ quoted (js "1.0") ++ js " encoding="
         ++ quoted (js "UTF-8") ++ js "?>" ++ newline
         ++ js "<gpx version=" ++ quoted (js "1.1") ++ js " creator="
         ++ quoted (js "Carris Metropolitana") ++ js ">" ++ newline
         ++ js "  <trk>" ++ newline
         ++ js "    <name>" ++ to_string headsign ++ js "</name>" ++ newline
         ++ js "    <trkseg>" ++ newline
         ++ join newline points ++ newline
         ++ js "    </trkseg>" ++ newline
         ++ js "  </trk>" ++ newline
         ++ js "</gpx>")).

(** [`rota-${routeDetails.short_name}-${selectedPattern.headsign.replace(/\s+/g, '-')}.gpx`]:
    only a string has the method [replace]. *)
Definition download_name (routeDetails selectedPattern : val) : result jsstring :=
  short_name <- prop routeDetails (js "short_name") ;;
  headsign <- prop selectedPattern (js "headsign") ;;
  match headsign with
  | VStr s =>
      Ok (js "rota-" ++ to_string short_name ++ js "-" ++ replace_whitespace s
          ++ js ".gpx")
  | _ => Throw TypeError
  end.

Definition downloadGPX (a : app) : app :=
  let st := ui a in
  if negb (truthy (selectedPattern st)) || negb (truthy (shapeData st))
     || negb (truthy (routeDetails st))
  then with_ui (setError nothing_selected_message st) a
  else
    match (content <- gpxData (selectedPattern st) (shapeData st) ;;
           filename <- download_name (routeDetails st) (selectedPattern st) ;;
           Ok (Download filename content)) with
    | Ok download =>
        {| ui := st; suspended := suspended a; requests := requests a;
           effects := effects a ++ [download] |}
    | Throw e =>
        {| ui := setError gpx_failure_message st; suspended := suspended a;
           requests := requests a; effects := effects a ++ [ConsoleError e] |}
    end.

(** *** The event loop *)

Inductive event : Type :=
| Typed (text : jsstring)
| SearchClicked
| PatternClicked (pattern : val)
| DownloadClicked
| Resumed (k i : nat).

(** [Resumed k i] resumes the [k]-th suspended handler; in the pattern
    fan-out of a search, [i] is the task whose response has arrived. *)
Definition step (net : network) (a : app) (e : event) : app :=
  match e with
  | Typed text => with_ui (setRouteNumber text (ui a)) a
  | SearchClicked => searchRoute a
  | PatternClicked pattern => fetchPattern pattern a
  | DownloadClicked => downloadGPX a
  | Resumed k i =>
      match nth_error (suspended a) k with
      | None => a
      | Some (SearchLine url) => resume_search_line net url k a
      | Some (SearchLineJson lineResponse) => resume_search_json lineResponse k a
      | Some (SearchPatterns fanout) => resume_search_patterns net fanout k i a
      | Some (ShapeFetch url) => resume_shape_fetch net url k a
      | Some (ShapeJson shapeResponse) => resume_shape_json shapeResponse k a
      end
  end.

Definition run (net : network) (a : app) (events : list event) : app :=
  fold_left (step net) events a.

(** A search for the line [text] from the keyboard to the fan-out: the text
    is typed, the button clicked, the line's response and its document
    arrive, and then the responses of the fan-out in the order of
    [schedule]. *)
Definition search_events (text : jsstring) (schedule : list nat) : list event :=
  [Typed text; SearchClicked; Resumed 0 0; Resumed 0 0]
  ++ map (Resumed 0) schedule.

End Application.

(** ** What App computes when it renders (App.tsx, lines 292-380) *)

Section Rendering.
Context `{Runtime}.

(** The text of a pattern's button, [{origin} - {destination}] of the
    endpoints of [pattern.headsign] (lines 293 and 307-309): only a string
    has the method [split]. *)
Definition pattern_label (pattern : val) : result jsstring :=
  headsign <- prop pattern (js "headsign") ;;
  match headsign with
  | VStr s =>
      let ends := getRouteEndpoints s in
      Ok (origin ends ++ js " - " ++ destination ends)
  | _ => Throw TypeError
  end.

(** [getRouteEndpoints(selectedPattern?.headsign || '')] (lines 363, 377). *)
Definition popup_endpoints (selectedPattern : val) : result endpoints :=
  headsign <- (if nullish selectedPattern then Ok VUndefined
               else prop selectedPattern (js "headsign")) ;;
  match (if truthy headsign then headsign else VStr []) with
  | VStr s => Ok (getRouteEndpoints s)
  | _ => Throw TypeError
  end.

(** A marker as App hands it to the map: the position, latitude first, and
    the text of the popup. *)
Record marker : Type := {
  latitude : val;
  longitude : val;
  popup : jsstring;
}.

(** The two markers of the map section (lines 354-380), which is rendered
    when there are line details: none without a loaded shape that has a
    [geojson] member, otherwise one at the first entry of the coordinates
    and one at the last. *)
Definition markers (st : state) : result (list marker) :=
  if negb (truthy (routeDetails st)) then Ok []
  else if negb (truthy (shapeData st)) then Ok []
  else
    geojson <- prop (shapeData st) (js "geojson") ;;
    if negb (truthy geojson) then Ok []
    else
      geometry <- prop geojson (js "geometry") ;;
      coordinates <- prop geometry (js "coordinates") ;;
      first <- item coordinates 0 ;;
      lat1 <- item first 1 ;;
      lon1 <- item first 0 ;;
      start <- popup_endpoints (selectedPattern st) ;;
      final <- last_item coordinates ;;
      lat2 <- item final 1 ;;
      lon2 <- item final 0 ;;
      finish <- popup_endpoints (selectedPattern st) ;;
      Ok [ {| latitude := lat1; longitude := lon1;
              popup := js "In" ++ [237%N] ++ js "cio: " ++ origin start |};
           {| latitude := lat2; longitude := lon2;
              popup := js "Fim: " ++ destination finish |} ].

End Rendering.

(** ** Notions the statements use *)

(** The fragments occur in the text one after the other, without overlap. *)
Fixpoint in_order (fragments : list jsstring) (text : jsstring) : Prop :=
  match fragments with
  | [] => True
  | fragment :: rest =>
      exists before after,
        text = before ++ fragment ++ after /\ in_order rest after
  end.

(** The text holds the pattern somewhere. *)
Definition occurs (pattern text : jsstring) : Prop :=
  exists before after, text = before ++ pattern ++ after.

(** No match of the separator begins inside [segment] when [s] follows it:
    what the scan of [split] keeps true of the segment it is collecting. *)
Definition unmatched (sep segment s : jsstring) : Prop :=
  forall before inside,
    segment = before ++ inside -> inside <> [] ->
    starts_with sep (inside ++ s) = false.

(** A token that can stand between delimiters: it holds no delimiter and
    does not end in [" -"], which the blank of a delimiter after it would
    complete. *)
Definition plain_token (token : jsstring) : Prop :=
  ~ occurs delimiter token /\ forall before, token <> before ++ js " -".

(** Every index below [n] is scheduled at least four times: each task of a
    fan-out of [n] gets through its four [await]s. *)
Definition complete (n : nat) (schedule : list nat) : Prop :=
  forall i, i < n -> 4 <= count_occ Nat.eq_dec schedule i.

Section Shapes.
Context `{Runtime}.

Definition is_array (v : val) : Prop := exists items, v = VArr items.

(** The value is a feature collection with these features. *)
Definition feature_collection (geojson : val) (features : list val) : Prop :=
  prop geojson (js "type") = Ok (VStr (js "FeatureCollection"))
  /\ prop geojson (js "features") = Ok (VArr features).

(** The feature has a geometry of this type whose coordinates are an array
    with these entries. *)
Definition feature_of (feature : val) (type : val) (entries : list val) : Prop :=
  exists geometry,
    nullish feature = false
    /\ prop feature (js "geometry") = Ok geometry
    /\ prop geometry (js "type") = Ok type
    /\ prop geometry (js "coordinates") = Ok (VArr entries).

(** A feature whose coordinates are an array of arrays: a line, a polygon,
    a multi-point or a multi-line, with any number of entries. *)
Definition shaped_feature (feature : val) : Prop :=
  exists type entries,
    feature_of feature type entries /\ Forall is_array entries.


Definition is_line (feature : val) : bool :=
  match (geometry <- prop feature (js "geometry") ;;
         type <- prop geometry (js "type") ;;
         Ok (is_string type (js "LineString"))) with
  | Ok b => b
  | Throw _ => false
  end.

Definition coordinates_of (feature : val) : list val :=
  match (geometry <- prop feature (js "geometry") ;;
         prop geometry (js "coordinates")) with
  | Ok (VArr entries) => entries
  | _ => []
  end.


Definition lon_of (coord : val) : val :=
  match item coord 0 with Ok v => v | Throw _ => VUndefined end.

Definition lat_of (coord : val) : val :=
  match item coord 1 with Ok v => v | Throw _ => VUndefined end.

(** The track point that [geojsonToGpx] writes for a coordinate pair. *)
Definition point_text (coord : val) : jsstring :=
  trkpt (lon_of coord) (lat_of coord).

(** The track point that [downloadGPX] writes for a coordinate pair. *)
Definition download_point_text (coord : val) : jsstring :=
  js "      <trkpt lat=" ++ quoted (to_string (lat_of coord)) ++ js " lon="
  ++ quoted (to_string (lon_of coord)) ++ js "></trkpt>".

(** The coordinate pairs of the single feature that [downloadGPX] reads. *)
Definition shape_points (shapeData : val) : list val :=
  match (geojson <- prop shapeData (js "geojson") ;;
         geometry <- prop geojson (js "geometry") ;;
         prop geometry (js "coordinates")) with
  | Ok (VArr entries) => entries
  | _ => []
  end.

(** [feature.properties?.name]. *)
Definition name_of (feature : val) : val :=
  match (properties <- prop feature (js "properties") ;;
         if nullish properties then Ok VUndefined
         else prop properties (js "name")) with
  | Ok v => v
  | Throw _ => VUndefined
  end.

(** The name a track is given: the feature's own name when that value is
    truthy, the literal [Rota] otherwise. *)
Definition name_text (feature : val) : jsstring :=
  if truthy (name_of feature) then to_string (name_of feature) else js "Rota".

(** The text a feature contributes to the body: one [trk] element for a line
    feature, nothing for any other. *)
Definition track_text (feature : val) : jsstring :=
  if is_line feature
  then js "<trk><name>" ++ name_text feature ++ js "</name><trkseg>"
       ++ join newline (map point_text (coordinates_of feature))
       ++ js "</trkseg></trk>"
  else [].

(** A waypoint entry: longitude, latitude and label, with the line break
    after it. *)
Definition waypoint_text (lon lat label : jsstring) : jsstring :=
  js "<wpt lon=" ++ quoted lon ++ js " lat=" ++ quoted lat ++ js ">" ++ newline
  ++ js "  <name>" ++ label ++ js "</name>" ++ newline
  ++ js "</wpt>" ++ newline.

(** [geojson.type], [undefined] where there is none to read. *)
Definition type_of (geojson : val) : val :=
  match prop geojson (js "type") with
  | Ok type => type
  | Throw _ => VUndefined
  end.

(** The task of [patternId] after [k] of its [await]s have been resumed. *)
Fixpoint progress (net : network) (patternId : val) (k : nat) : task :=
  match k with
  | O => PatternFetch patternId
  | S k' => fst (advance net (progress net patternId k'))
  end.

(** What holds of a fan-out for [patternIds] at every moment: each task is
    somewhere on the path of its identifier, and [joined] agrees with the
    tasks. *)
Definition on_path (net : network) (patternId : val) (t : task) : Prop :=
  exists k, t = progress net patternId k.

Definition consistent (p : pool) : Prop :=
  match joined p with
  | None =>
      Forall (fun t => forall e, t <> Settled (Throw e)) (tasks p)
      /\ all_fulfilled (tasks p) = None
  | Some (Ok values) => all_fulfilled (tasks p) = Some values
  | Some (Throw e) => In (Settled (Throw e)) (tasks p)
  end.

Definition pool_invariant (net : network) (patternIds : list val) (p : pool)
  : Prop :=
  Forall2 (on_path net) patternIds (tasks p) /\ consistent p.



(** The document is what the API serves, with a success status, for the
    shape of this pattern. *)
Definition fetched_for (net : network) (pattern shape : val) : Prop :=
  exists shape_id,
    prop pattern (js "shape_id") = Ok shape_id
    /\ ok (net (shapes_url shape_id)) = true
    /\ shape = json (net (shapes_url shape_id)).

(** A suspended shape fetch belongs to one of the patterns [selected]. *)
Definition pending_known (net : network) (selected : val -> Prop) (c : pending)
  : Prop :=
  match c with
  | ShapeFetch url =>
      exists pattern shape_id,
        selected pattern
        /\ prop pattern (js "shape_id") = Ok shape_id
        /\ url = shapes_url shape_id
  | ShapeJson shapeResponse =>
      exists pattern shape_id,
        selected pattern
        /\ prop pattern (js "shape_id") = Ok shape_id
        /\ shapeResponse = net (shapes_url shape_id)
        /\ ok shapeResponse = true
  | _ => True
  end.

(** The loaded shape is absent or was fetched for a pattern [selected], and
    so will be whatever a suspended fetch brings. *)
Definition shape_invariant (net : network) (selected : val -> Prop) (a : app)
  : Prop :=
  (shapeData (ui a) = VNull
   \/ exists pattern, selected pattern /\ fetched_for net pattern (shapeData (ui a)))
  /\ Forall (pending_known net selected) (suspended a).

End Shapes.

(** ** Further notions *)

(** The text holds the pattern somewhere, as a test. *)
Fixpoint contains (pattern text : jsstring) : bool :=
  starts_with pattern text
  || match text with
     | [] => false
     | _ :: rest => contains pattern rest
     end.

Section Further_notions.
Context `{Runtime}.

(** A feature that the callback of [geojsonToGpx] takes: it has a geometry
    with a type, and when that type is [LineString] its coordinates are an
    array of arrays.  The coordinates of any other geometry are not read. *)
Definition convertible_feature (feature : val) : Prop :=
  exists geometry type,
    nullish feature = false
    /\ prop feature (js "geometry") = Ok geometry
    /\ prop geometry (js "type") = Ok type
    /\ (is_string type (js "LineString") = true ->
        exists entries,
          prop geometry (js "coordinates") = Ok (VArr entries)
          /\ Forall is_array entries).

(** A task that has not yet got its pattern document may still send its
    one route request. *)
Definition owes_route (t : task) : nat :=
  match t with
  | PatternFetch _ | PatternJson _ => 1
  | _ => 0
  end.

Definition owed (ts : list task) : nat := list_sum (map owes_route ts).

End Further_notions.

(** ** Worked data

    Numbers for closed examples: a double is given by the text that
    [Number::toString] prints for it, false when that text is [0] or [NaN].
    The examples hold no array-like object; the key the instance gives for
    one is the key of a [length] that is no number. *)

Definition printed_numbers : Runtime := {|
  number := jsstring;
  number_to_string := fun text => text;
  number_truthy := fun text =>
    negb (str_eqb text (js "0") || str_eqb text (js "NaN"));
  length_minus_one_key := fun _ => js "NaN";
  type_error_message := js "TypeError";
|}.

Definition sample : Type := value (@number printed_numbers).

Definition num (text : string) : sample := VNum (js text).
Definition str (text : string) : sample := VStr (js text).
Definition obj (members : list (string * sample)) : sample :=
  VObj (map (fun m => (js (fst m), snd m)) members).

Definition pair_of (lon lat : string) : sample := VArr [num lon; num lat].

Definition geometry_of (type : string) (coordinates : sample) : sample :=
  obj [("type", str type); ("coordinates", coordinates)]%string.

Definition feature (geometry : sample) (properties : list (string * sample)) : sample :=
  obj [("type", str "Feature"); ("geometry", geometry);
       ("properties", obj properties)]%string.

Definition collection (features : list sample) : sample :=
  obj [("type", str "FeatureCollection"); ("features", VArr features)]%string.

(** The line of the specification's example. *)
Definition sample_line : sample :=
  geometry_of "LineString" (VArr [pair_of "-9.14" "38.7"; pair_of "-9.1" "38.75"]).

Definition sample_collection : sample := collection [feature sample_line []].

(** A small API: line 1001 with the patterns p1 and p2 of route r1, and
    their shapes s1 and s2. *)
Definition sample_pattern (id headsign shape_id : string) : sample :=
  obj [("id", str id); ("headsign", str headsign); ("shape_id", str shape_id);
       ("route_id", str "r1")]%string.

Definition sample_shape (lon lat : string) : sample :=
  obj [("geojson",
        feature (geometry_of "LineString"
                   (VArr [pair_of lon lat; pair_of "-9.1" "38.75"])) [])]%string.

Definition pattern_X : sample := sample_pattern "p1" "Cacilhas - Lisboa" "s1".
Definition pattern_Y : sample := sample_pattern "p2" "Lisboa - Cacilhas" "s2".
Definition shape_X : sample := sample_shape "-9.14" "38.7".
Definition shape_Y : sample := sample_shape "-9.2" "38.6".

Definition sample_api : list (jsstring * sample) :=
  [(api ++ js "lines/1001",
    obj [("short_name", str "1001"); ("patterns", VArr [str "p1"; str "p2"])]%string);
   (api ++ js "patterns/p1", pattern_X);
   (api ++ js "patterns/p2", pattern_Y);
   (api ++ js "routes/r1", obj [("long_name", str "Cacilhas (Terminal) - Lisboa")]%string);
   (api ++ js "shapes/s1", shape_X);
   (api ++ js "shapes/s2", shape_Y)].

Fixpoint serve (documents : list (jsstring * sample)) (url : jsstring)
  : @response printed_numbers :=
  match documents with
  | [] => {| ok := false; json := VNull |}
  | (address, document) :: rest =>
      if str_eqb address url then {| ok := true; json := document |}
      else serve rest url
  end.

Definition sample_network : @network printed_numbers := serve sample_api.

(** The patterns that a search for line 1001 shows: the documents of p1 and
    p2 with the long name of route r1. *)
Definition enriched (pattern : sample) : sample :=
  match pattern with
  | VObj members =>
      VObj (members
            ++ [(js "route_long_name", str "Cacilhas (Terminal) - Lisboa");
                (js "long_name", str "Cacilhas (Terminal) - Lisboa")])
  | _ => pattern
  end.

(** The search for line 1001, its responses arriving in turn. *)
Definition sample_search : list (@event printed_numbers) :=
  search_events (js "1001") [0; 1; 0; 1; 0; 1; 0; 1].

(** After the search the first pattern is clicked and then the second, and
    the shape of the second arrives before the shape of the first. *)
Definition sample_race : list (@event printed_numbers) :=
  sample_search
  ++ [PatternClicked (enriched pattern_X); PatternClicked (enriched pattern_Y);
      Resumed 2 0; Resumed 2 0; Resumed 1 0; Resumed 1 0].

(** The component once the search for line 1001 has shown its patterns, the
    first of them has been clicked and its shape has arrived. *)
Definition sample_loaded : @app printed_numbers :=
  run sample_network initial_app
    (sample_search
     ++ [PatternClicked (enriched pattern_X); Resumed 1 0; Resumed 1 0]).

(** * Properties *)

(** ** Strings *)

Lemma str_eqb_eq (a b : jsstring) : str_eqb a b = true <-> a = b.
Proof.
  revert b; induction a as [|x a IH]; intros [|y b]; simpl; split;
    try congruence; try reflexivity.
  - intros E. apply andb_true_iff in E as [Exy Eab].
    apply N.eqb_eq in Exy. apply IH in Eab. congruence.
  - intros E. injection E as -> ->. apply andb_true_iff. split.
    + apply N.eqb_refl.
    + apply IH. reflexivity.
Qed.

Lemma str_eqb_refl (a : jsstring) : str_eqb a a = true.
Proof. apply str_eqb_eq. reflexivity. Qed.

Lemma starts_with_prefix (prefix s : jsstring) :
  starts_with prefix s = true <-> exists rest, s = prefix ++ rest.
Proof.
  revert s; induction prefix as [|p prefix IH]; intros s; simpl.
  - split; [intros _; exists s; reflexivity | reflexivity].
  - destruct s as [|u s].
    + split; [discriminate | intros [rest E]; discriminate].
    + split.
      * intros E. apply andb_true_iff in E as [Epu Es].
        apply N.eqb_eq in Epu. apply IH in Es as [rest ->].
        exists rest. now subst.
      * intros [rest E]. injection E as -> ->. apply andb_true_iff. split.
        -- apply N.eqb_refl.
        -- apply IH. now exists rest.
Qed.

Lemma join_cons (sep part : jsstring) (parts : list jsstring) :
  parts <> [] -> join sep (part :: parts) = part ++ sep ++ join sep parts.
Proof. destruct parts; [congruence | reflexivity]. Qed.

Lemma split_scan_not_nil (sep : jsstring) (s : jsstring) :
  forall skip segment, split_scan sep skip segment s <> [].
Proof.
  induction s as [|u s IH]; intros skip segment; simpl.
  - discriminate.
  - destruct skip; [destruct (starts_with sep (u :: s))|]; try apply IH.
    discriminate.
Qed.

Lemma split_scan_skip (sep passed : jsstring) :
  forall segment s,
    split_scan sep (List.length passed) segment (passed ++ s)
    = split_scan sep 0 segment s.
Proof.
  induction passed as [|u passed IH]; intros segment s; simpl.
  - reflexivity.
  - apply IH.
Qed.

(** At a match the scan closes the segment and goes on after the separator. *)
Lemma split_scan_match (sep segment rest : jsstring) :
  sep <> [] ->
  split_scan sep 0 segment (sep ++ rest)
  = segment :: split_scan sep 0 [] rest.
Proof.
  intros Hsep. destruct sep as [|c sep]; [congruence|].
  change ((c :: sep) ++ rest) with (c :: (sep ++ rest)).
  cbn [split_scan].
  replace (starts_with (c :: sep) (c :: sep ++ rest)) with true.
  - cbn [List.length]. rewrite Nat.sub_succ, Nat.sub_0_r.
    now rewrite split_scan_skip.
  - symmetry. apply starts_with_prefix. now exists rest.
Qed.

Lemma split_scan_pass (sep segment rest : jsstring) (u : code_unit) :
  starts_with sep (u :: rest) = false ->
  split_scan sep 0 segment (u :: rest)
  = split_scan sep 0 (segment ++ [u]) rest.
Proof. intros E. cbn [split_scan]. now rewrite E. Qed.

(** Strong induction on what is left to scan. *)
Lemma scan_induction (sep : jsstring) (P : jsstring -> Prop) :
  sep <> [] ->
  P [] ->
  (forall rest, P rest -> P (sep ++ rest)) ->
  (forall u rest, starts_with sep (u :: rest) = false -> P rest -> P (u :: rest)) ->
  forall s, P s.
Proof.
  intros Hsep Hnil Hmatch Hpass s.
  remember (List.length s) as n eqn:En.
  revert s En. induction n as [n IH] using lt_wf_ind. intros s En.
  destruct s as [|u rest]; [exact Hnil|].
  destruct (starts_with sep (u :: rest)) eqn:E.
  - apply starts_with_prefix in E as [tail E]. rewrite E.
    apply Hmatch. apply (IH (List.length tail)); [|reflexivity].
    rewrite En, E, length_app. destruct sep; [congruence|simpl; lia].
  - apply Hpass; [exact E|]. apply (IH (List.length rest)); [|reflexivity].
    rewrite En. simpl. lia.
Qed.

Lemma join_split_scan (sep : jsstring) :
  sep <> [] ->
  forall s segment, join sep (split_scan sep 0 segment s) = segment ++ s.
Proof.
  intros Hsep s. pattern s. apply (@scan_induction sep _ Hsep); clear s.
  - intros segment. simpl. now rewrite app_nil_r.
  - intros rest IH segment. rewrite split_scan_match by exact Hsep.
    rewrite join_cons by apply split_scan_not_nil.
    now rewrite IH.
  - intros u rest E IH segment. rewrite split_scan_pass by exact E. rewrite IH.
    now rewrite <- app_assoc.
Qed.

Lemma unmatched_no_occurrence (sep segment s : jsstring) :
  sep <> [] ->
  unmatched sep segment s ->
  (s = [] \/ starts_with sep s = true) ->
  ~ occurs sep segment.
Proof.
  intros Hsep Hun Hs (before & after & E).
  assert (starts_with sep ((sep ++ after) ++ s) = true) as Hyes.
  { apply starts_with_prefix. exists (after ++ s). now rewrite app_assoc. }
  rewrite (Hun before (sep ++ after)) in Hyes; [discriminate|exact E|].
  destruct sep; [congruence|discriminate].
Qed.

Lemma unmatched_snoc (sep segment rest : jsstring) (u : code_unit) :
  unmatched sep segment (u :: rest) ->
  starts_with sep (u :: rest) = false ->
  unmatched sep (segment ++ [u]) rest.
Proof.
  intros Hun E before inside Eq Hne.
  destruct (exists_last Hne) as (inside' & w & ->).
  rewrite app_assoc in Eq. apply app_inj_tail in Eq as [-> ->].
  rewrite <- app_assoc. simpl.
  destruct inside' as [|x inside'].
  - exact E.
  - apply (Hun before (x :: inside')); [reflexivity|discriminate].
Qed.

Lemma split_scan_parts (sep : jsstring) :
  sep <> [] ->
  forall s segment,
    unmatched sep segment s ->
    Forall (fun part => ~ occurs sep part) (split_scan sep 0 segment s).
Proof.
  intros Hsep s. pattern s. apply (@scan_induction sep _ Hsep); clear s.
  - intros segment Hun. simpl. constructor; [|constructor].
    apply (unmatched_no_occurrence Hsep Hun). now left.
  - intros rest IH segment Hun.
    rewrite split_scan_match by exact Hsep. constructor.
    + apply (unmatched_no_occurrence Hsep Hun). right.
      apply starts_with_prefix. now exists rest.
    + apply IH. intros before inside Eq Hne.
      destruct before; destruct inside; simpl in Eq; congruence.
  - intros u rest E IH segment Hun.
    rewrite split_scan_pass by exact E. apply IH.
    now apply unmatched_snoc.
Qed.

Lemma delimiter_not_nil : delimiter <> [].
Proof. discriminate. Qed.

Lemma split_delimiter (headsign : jsstring) :
  split delimiter headsign = split_scan delimiter 0 [] headsign.
Proof. reflexivity. Qed.

Lemma join_occurs (sep first second : jsstring) (parts : list jsstring) :
  occurs sep (join sep (first :: second :: parts)).
Proof.
  exists first, (join sep (second :: parts)). reflexivity.
Qed.

Lemma split_scan_token (token : jsstring) :
  forall segment s,
    unmatched delimiter token s ->
    split_scan delimiter 0 segment (token ++ s)
    = split_scan delimiter 0 (segment ++ token) s.
Proof.
  induction token as [|u token IH]; intros segment s Hun.
  - simpl. now rewrite app_nil_r.
  - change ((u :: token) ++ s) with (u :: (token ++ s)).
    rewrite split_scan_pass
      by (apply (Hun [] (u :: token) eq_refl); discriminate).
    rewrite IH.
    + now rewrite <- app_assoc.
    + intros before inside E Hne. apply (Hun (u :: before) inside); [|exact Hne].
      now rewrite E.
Qed.

Lemma plain_token_unmatched (token rest : jsstring) :
  plain_token token ->
  unmatched delimiter token (delimiter ++ rest)
  /\ unmatched delimiter token [].
Proof.
  intros [Hfree Hend]. split; intros before inside E Hne;
    destruct (starts_with delimiter (inside ++ _)) eqn:Es; try reflexivity;
    exfalso; apply starts_with_prefix in Es as [tail Es].
  - destruct inside as [|c1 [|c2 [|c3 inside]]]; [congruence| | |].
    + vm_compute in Es. discriminate.
    + apply (Hend before). rewrite E. f_equal.
      vm_compute in Es. injection Es as -> ->. reflexivity.
    + apply Hfree. exists before, inside. rewrite E. f_equal.
      change ((c1 :: c2 :: c3 :: inside) ++ delimiter ++ rest)
        with (c1 :: c2 :: c3 :: (inside ++ delimiter ++ rest)) in Es.
      vm_compute in Es. injection Es as -> -> -> _. reflexivity.
  - rewrite app_nil_r in Es. apply Hfree. exists before, tail.
    now rewrite E, Es.
Qed.

Lemma split_join_tokens (tokens : list jsstring) :
  tokens <> [] -> Forall plain_token tokens ->
  split delimiter (join delimiter tokens) = tokens.
Proof.
  intros Hne Hplain. rewrite split_delimiter.
  induction Hplain as [|token tokens Htoken Htokens IH]; [congruence|].
  destruct tokens as [|next tokens].
  - cbn [join]. rewrite <- (app_nil_r token) at 1.
    rewrite split_scan_token by apply (plain_token_unmatched [] Htoken).
    reflexivity.
  - rewrite join_cons by discriminate.
    rewrite split_scan_token
      by apply (plain_token_unmatched (join delimiter (next :: tokens)) Htoken).
    rewrite split_scan_match by apply delimiter_not_nil.
    cbn [List.app]. f_equal. apply IH. discriminate.
Qed.

(** C6: [getRouteEndpoints] splits the headsign at the literal delimiter
    [" - "]: the parts are never none, joined by the delimiter they give the
    headsign back, and none of them holds the delimiter; [origin] is the
    first part and [destination] the last one.  A headsign without the
    delimiter is one part, so both are the whole headsign; a headsign made
    of several tokens with the delimiter between them gives the first token
    and the last. *)
Theorem getRouteEndpoints_first_and_last (headsign : jsstring) :
  let parts := split delimiter headsign in
  parts <> []
  /\ join delimiter parts = headsign
  /\ Forall (fun part => ~ occurs delimiter part) parts
  /\ origin (getRouteEndpoints headsign) = hd [] parts
  /\ destination (getRouteEndpoints headsign) = last parts []
  /\ (~ occurs delimiter headsign ->
      origin (getRouteEndpoints headsign) = headsign
      /\ destination (getRouteEndpoints headsign) = headsign)
  /\ (forall tokens,
         tokens <> [] -> Forall plain_token tokens ->
         headsign = join delimiter tokens ->
         origin (getRouteEndpoints headsign) = hd [] tokens
         /\ destination (getRouteEndpoints headsign) = last tokens []).
Proof.
  intros parts. unfold parts. rewrite split_delimiter.
  assert (join delimiter (split_scan delimiter 0 [] headsign) = headsign) as J.
  { now rewrite (join_split_scan delimiter_not_nil). }
  assert (~ occurs delimiter headsign ->
          split_scan delimiter 0 [] headsign = [headsign]) as Hone.
  { intros Hfree.
    destruct (split_scan delimiter 0 [] headsign) as [|first [|second rest]] eqn:E.
    - now apply split_scan_not_nil in E.
    - simpl in J. now rewrite J.
    - exfalso. apply Hfree. rewrite <- J. apply join_occurs. }
  split; [apply split_scan_not_nil|]. split; [exact J|]. split.
  { apply (split_scan_parts delimiter_not_nil).
    intros before inside Eq Hne.
    destruct before; destruct inside; simpl in Eq; congruence. }
  split; [reflexivity|]. split; [reflexivity|]. split.
  - intros Hfree. unfold getRouteEndpoints. rewrite split_delimiter.
    rewrite (Hone Hfree). split; reflexivity.
  - intros tokens Hne Hplain ->. unfold getRouteEndpoints.
    rewrite (split_join_tokens Hne Hplain). split; reflexivity.
Qed.

(** The headsigns of the specification's examples. *)
Example getRouteEndpoints_examples :
  getRouteEndpoints (js "Cacilhas - Lisboa")
  = {| origin := js "Cacilhas"; destination := js "Lisboa" |}
  /\ getRouteEndpoints (js "SingleTerm")
     = {| origin := js "SingleTerm"; destination := js "SingleTerm" |}
  /\ getRouteEndpoints (js "A - B - C")
     = {| origin := js "A"; destination := js "C" |}.
Proof. repeat split; reflexivity. Qed.

(** ** Results and fragments *)

Lemma bind_ok {A B : Type} (r : result A) (k : A -> result B) (b : B) :
  bind r k = Ok b -> exists a, r = Ok a /\ k a = Ok b.
Proof. destruct r as [a|e]; simpl; [now exists a | discriminate]. Qed.

Ltac bind_inversion E :=
  let x := fresh "x" in
  let Ex := fresh "E" x in
  apply bind_ok in E as (x & Ex & E).

Lemma in_order_after (fragments : list jsstring) (before text : jsstring) :
  in_order fragments text -> in_order fragments (before ++ text).
Proof.
  destruct fragments as [|fragment rest]; simpl; [trivial|].
  intros (b & a & -> & Hrest). exists (before ++ b), a.
  now rewrite <- app_assoc.
Qed.

Lemma in_order_before (fragments : list jsstring) (text after : jsstring) :
  in_order fragments text -> in_order fragments (text ++ after).
Proof.
  revert text; induction fragments as [|fragment rest IH]; simpl; [trivial|].
  intros text (b & a & -> & Hrest). exists b, (a ++ after). split.
  - now rewrite <- !app_assoc.
  - now apply IH.
Qed.


Lemma in_order_self (fragment : jsstring) : in_order [fragment] fragment.
Proof. exists [], []. simpl. now rewrite app_nil_r. Qed.


Lemma in_order_join_map (sep : jsstring) (fragments : list jsstring) :
  in_order fragments (join sep fragments).
Proof.
  induction fragments as [|fragment rest IH]; [exact I|].
  destruct rest as [|next rest]; [apply in_order_self|].
  exists [], (sep ++ join sep (next :: rest)). split; [reflexivity|].
  now apply in_order_after.
Qed.

Section Exporter_properties.
Context `{Runtime}.

(** ** geojsonToGpx *)

Lemma mapM_ok {A B : Type} (f : A -> result B) (g : A -> B) (l : list A)
  (out : list B) :
  (forall x y, f x = Ok y -> y = g x) ->
  mapM f l = Ok out -> out = map g l.
Proof.
  intros Hfg. revert out; induction l as [|x l IH]; simpl; intros out E.
  - now injection E as <-.
  - bind_inversion E. bind_inversion E. injection E as <-.
    f_equal; [now apply Hfg | now apply IH].
Qed.

Lemma track_point_text (coord : val) (text : jsstring) :
  track_point coord = Ok text -> text = trkpt (lon_of coord) (lat_of coord).
Proof.
  unfold track_point, lon_of, lat_of. intros E.
  bind_inversion E. bind_inversion E. rewrite Ex, Ex0. now injection E as <-.
Qed.

(** What the callback returns for a line feature. *)
Lemma track_line (feature : val) (text : jsstring) :
  track feature = Ok text ->
  is_line feature = true ->
  exists name,
    track_name feature = Ok name
    /\ text = js "<trk><name>" ++ name ++ js "</name><trkseg>"
              ++ join newline
                   (map (fun coord => trkpt (lon_of coord) (lat_of coord))
                      (coordinates_of feature))
              ++ js "</trkseg></trk>".
Proof.
  unfold track, is_line, coordinates_of. intros E Hline.
  bind_inversion E. rewrite Ex in *. simpl in Hline |- *.
  bind_inversion E. rewrite Ex0 in *. simpl in Hline. rewrite Hline in E.
  bind_inversion E. rewrite Ex1. bind_inversion E. bind_inversion E.
  injection E as <-. exists x3. split; [exact Ex3|].
  destruct x1; try discriminate. simpl in Ex2.
  now rewrite (@mapM_ok _ _ track_point point_text items x2 track_point_text Ex2).
Qed.

Lemma track_other (feature : val) (text : jsstring) :
  track feature = Ok text -> is_line feature = false -> text = [].
Proof.
  unfold track, is_line. intros E Hline.
  bind_inversion E. rewrite Ex in *. simpl in Hline.
  bind_inversion E. rewrite Ex0 in *. simpl in Hline. rewrite Hline in E.
  now injection E as <-.
Qed.




(** The parts of a successful conversion. *)
Lemma geojsonToGpx_parts (geojson : val) (origin destination out : jsstring) :
  geojsonToGpx geojson origin destination = Ok out ->
  exists points body,
    waypoints geojson origin destination = Ok points
    /\ gpxBody geojson = Ok body
    /\ out = gpxHeader ++ points ++ body ++ gpxFooter.
Proof.
  unfold geojsonToGpx. intros E. bind_inversion E.
  destruct (negb (truthy geojson) || negb (is_string x (js "FeatureCollection")));
    [discriminate|].
  bind_inversion E. bind_inversion E. injection E as <-.
  now exists x0, x1.
Qed.

End Exporter_properties.

(** ** Well-shaped collections are converted *)

Section Conversion_succeeds.
Context `{Runtime}.

Lemma prop_present (v : val) (name : jsstring) :
  nullish v = false -> exists w, prop v name = Ok w.
Proof. destruct v; simpl; try discriminate; eauto. Qed.

Lemma track_name_present (feature : val) :
  nullish feature = false -> exists name, track_name feature = Ok name.
Proof.
  intros Hf. unfold track_name.
  destruct (prop_present feature (js "properties") Hf) as (properties & ->).
  simpl. destruct (nullish properties) eqn:Hp; simpl; [eauto|].
  destruct (prop_present properties (js "name") Hp) as (name & ->).
  simpl. eauto.
Qed.

Lemma track_points_present (entries : list val) :
  Forall is_array entries ->
  mapM track_point entries = Ok (map point_text entries).
Proof.
  induction 1 as [|entry entries [items ->] _ IH]; simpl; [reflexivity|].
  now rewrite IH.
Qed.

Lemma track_present (feature : val) :
  shaped_feature feature -> exists text, track feature = Ok text.
Proof.
  intros (type & entries & (geometry & Hf & Eg & Et & Ec) & Harrays).
  unfold track. rewrite Eg. simpl. rewrite Et. simpl.
  destruct (is_string type (js "LineString")); [|eauto].
  rewrite Ec. simpl. rewrite (track_points_present Harrays). simpl.
  destruct (track_name_present feature Hf) as (name & ->). simpl. eauto.
Qed.

Lemma tracks_present (features : list val) :
  Forall shaped_feature features -> exists tracks, mapM track features = Ok tracks.
Proof.
  induction 1 as [|feature features Hf _ (tracks & IH)]; simpl; [eauto|].
  destruct (track_present Hf) as (text & ->). simpl. rewrite IH. simpl. eauto.
Qed.

Lemma last_in (entries : list val) (d : val) :
  entries <> [] -> In (last entries d) entries.
Proof.
  induction entries as [|entry [|next rest] IH]; intros Hne.
  - congruence.
  - now left.
  - right. apply IH. discriminate.
Qed.

Lemma first_coordinates_shaped (geojson first : val) (others entries : list val)
  (type : val) :
  prop geojson (js "features") = Ok (VArr (first :: others)) ->
  feature_of first type entries ->
  first_coordinates geojson = Ok (Some (VArr entries)).
Proof.
  intros Ef (geometry & Hf & Eg & _ & Ec).
  unfold first_coordinates. rewrite Ef. simpl. rewrite Hf, Eg. simpl.
  now rewrite Ec.
Qed.

(** The waypoints of a collection whose first feature has coordinates that
    are arrays, the first and the last one. *)
Lemma waypoints_shaped (geojson first : val) (others entries : list val)
  (type entry : val) (origin destination : jsstring) :
  prop geojson (js "features") = Ok (VArr (first :: others)) ->
  feature_of first type (entry :: entries) ->
  is_array entry -> is_array (last (entry :: entries) VUndefined) ->
  waypoints geojson origin destination
  = Ok (newline
        ++ wpt (lon_of entry) (lat_of entry) origin
        ++ wpt (lon_of (last (entry :: entries) VUndefined))
             (lat_of (last (entry :: entries) VUndefined)) destination).
Proof.
  intros Ef Hfirst [items ->] Hlast.
  unfold waypoints. rewrite (first_coordinates_shaped _ Ef Hfirst).
  cbn [bind item last_item nth].
  destruct Hlast as [items' ->]. reflexivity.
Qed.

Lemma geojsonToGpx_shaped (geojson first : val) (others entries : list val)
  (type entry : val) (origin destination : jsstring) :
  feature_collection geojson (first :: others) ->
  Forall shaped_feature (first :: others) ->
  feature_of first type (entry :: entries) ->
  Forall is_array (entry :: entries) ->
  exists tracks,
    mapM track (first :: others) = Ok tracks
    /\ geojsonToGpx geojson origin destination
       = Ok (gpxHeader
             ++ (newline
                 ++ wpt (lon_of entry) (lat_of entry) origin
                 ++ wpt (lon_of (last (entry :: entries) VUndefined))
                      (lat_of (last (entry :: entries) VUndefined)) destination)
             ++ join newline tracks ++ gpxFooter).
Proof.
  intros [Et Ef] Hshaped Hfirst Harrays.
  destruct (tracks_present Hshaped) as (tracks & Etracks).
  exists tracks. split; [exact Etracks|].
  unfold geojsonToGpx.
  assert (truthy geojson = true) as Hg.
  { destruct geojson; simpl in Et; try discriminate; reflexivity. }
  rewrite Hg, Et. cbn [bind].
  change (is_string (VStr (js "FeatureCollection")) (js "FeatureCollection"))
    with true.
  cbn [negb orb].
  rewrite (@waypoints_shaped geojson first others entries type entry origin
             destination Ef Hfirst).
  - unfold gpxBody. rewrite Ef. cbn [bind array_map]. rewrite Etracks.
    reflexivity.
  - now inversion Harrays.
  - rewrite Forall_forall in Harrays. apply Harrays. apply last_in. discriminate.
Qed.

Lemma truthy_not_nullish (v : val) : truthy v = true -> nullish v = false.
Proof. now destruct v. Qed.





Lemma shaped_is_convertible (feature : val) :
  shaped_feature feature -> convertible_feature feature.
Proof.
  intros (type & entries & (geometry & Hf & Eg & Et & Ec) & Harrays).
  exists geometry, type. repeat split; try assumption.
  intros _. now exists entries.
Qed.


End Conversion_succeeds.

(** ** The document of downloadGPX *)

Lemma trim_start_unchanged (s : jsstring) :
  is_whitespace (hd 32%N s) = false -> trim_start s = s.
Proof. destruct s as [|u s]; simpl; [reflexivity|]. now intros ->. Qed.

Lemma trim_unchanged (s : jsstring) :
  is_whitespace (hd 32%N s) = false ->
  is_whitespace (hd 32%N (rev s)) = false ->
  trim s = s.
Proof.
  intros Hfirst Hlast. unfold trim.
  rewrite (trim_start_unchanged s Hfirst).
  rewrite (trim_start_unchanged (rev s) Hlast).
  apply rev_involutive.
Qed.

Section Download_properties.
Context `{Runtime}.

Lemma download_point_ok (coord : val) (text : jsstring) :
  download_point coord = Ok text -> text = download_point_text coord.
Proof.
  unfold download_point, download_point_text, lon_of, lat_of. intros E.
  bind_inversion E. bind_inversion E. rewrite Ex, Ex0. now injection E as <-.
Qed.

(** The text of a download, before [trim] leaves it as it is. *)
Lemma gpxData_text (selectedPattern shapeData : val) (content : jsstring) :
  gpxData selectedPattern shapeData = Ok content ->
  exists headsign,
    prop selectedPattern (js "headsign") = Ok headsign
    /\ content
       = js "<?xml version=" ++ quoted (js "1.0") ++ js " encoding="
         ++ quoted (js "UTF-8") ++ js "?>" ++ newline
         ++ js "<gpx version=" ++ quoted (js "1.1") ++ js " creator="
         ++ quoted (js "Carris Metropolitana") ++ js ">" ++ newline
         ++ js "  <trk>" ++ newline
         ++ js "    <name>" ++ to_string headsign ++ js "</name>" ++ newline
         ++ js "    <trkseg>" ++ newline
         ++ join newline (map download_point_text (shape_points shapeData))
         ++ newline
         ++ js "    </trkseg>" ++ newline
         ++ js "  </trk>" ++ newline
         ++ js "</gpx>".
Proof.
  unfold gpxData, shape_points. intros E.
  bind_inversion E. exists x. split; [exact Ex|].
  bind_inversion E. rewrite Ex0. cbn [bind].
  bind_inversion E. rewrite Ex1. cbn [bind].
  bind_inversion E. rewrite Ex2.
  bind_inversion E. injection E as <-.
  destruct x2; try discriminate. simpl in Ex3.
  rewrite (@mapM_ok _ _ download_point download_point_text items x3
             download_point_ok Ex3).
  apply trim_unchanged; [reflexivity|].
  rewrite !rev_app_distr. reflexivity.
Qed.

Lemma gpxData_in_order (selectedPattern shapeData : val) (content : jsstring) :
  gpxData selectedPattern shapeData = Ok content ->
  in_order (map download_point_text (shape_points shapeData)) content.
Proof.
  intros E. destruct (gpxData_text _ _ E) as (headsign & _ & ->).
  do 20 apply in_order_after. apply in_order_before.
  apply in_order_join_map.
Qed.

Lemma download_points_present (entries : list val) :
  Forall is_array entries ->
  mapM download_point entries = Ok (map download_point_text entries).
Proof.
  induction 1 as [|entry entries [items ->] _ IH]; simpl; [reflexivity|].
  now rewrite IH.
Qed.


End Download_properties.

Section Exporter_claims.
Context `{Runtime}.

Lemma invalid_geojson (geojson : val) (origin destination : jsstring) :
  truthy geojson = false
  \/ is_string (type_of geojson) (js "FeatureCollection") = false ->
  geojsonToGpx geojson origin destination = Throw (Error invalid_geojson_message).
Proof.
  unfold geojsonToGpx, type_of. intros [Hg | Ht].
  - now rewrite Hg.
  - destruct (truthy geojson) eqn:Hg; [|reflexivity].
    destruct (prop geojson (js "type")) as [type|e] eqn:E.
    + cbn [bind negb orb]. now rewrite Ht.
    + destruct geojson; simpl in Hg, E; discriminate.
Qed.


Lemma track_name_ok (feature : val) (name : jsstring) :
  track_name feature = Ok name -> name = name_text feature.
Proof.
  unfold track_name, name_text, name_of. intros E.
  bind_inversion E. rewrite Ex. cbn [bind]. bind_inversion E. rewrite Ex0.
  now injection E as <-.
Qed.

Lemma track_ok (feature : val) (text : jsstring) :
  track feature = Ok text -> text = track_text feature.
Proof.
  intros E. unfold track_text. destruct (is_line feature) eqn:Hline.
  - destruct (track_line _ E Hline) as (name & Ename & ->).
    now rewrite (track_name_ok _ Ename).
  - exact (track_other _ E Hline).
Qed.

(** C2, as the code has it: for a feature collection whose features have
    coordinates that are arrays of arrays, the first feature at least one,
    [geojsonToGpx] returns the header, then exactly two waypoint entries,
    then the tracks of the features and the footer.  The first waypoint is
    at the first coordinate pair of the first feature and carries the origin
    label, the second is at its last pair and carries the destination label;
    each gives the pair's first member as [lon] and its second as [lat].  A
    shape that is not a feature collection gets no waypoint: [geojsonToGpx]
    refuses it with its invalid-GeoJSON error, a single feature included,
    whatever its coordinates. *)
Theorem geojsonToGpx_waypoints (geojson : val) (origin destination : jsstring) :
  (forall first others entries type entry,
      feature_collection geojson (first :: others) ->
      Forall shaped_feature (first :: others) ->
      feature_of first type (entry :: entries) ->
      Forall is_array (entry :: entries) ->
      let final := last (entry :: entries) VUndefined in
      geojsonToGpx geojson origin destination
      = Ok (gpxHeader ++ newline
            ++ waypoint_text (to_string (lon_of entry)) (to_string (lat_of entry))
                 origin
            ++ waypoint_text (to_string (lon_of final)) (to_string (lat_of final))
                 destination
            ++ join newline (map track_text (first :: others))
            ++ gpxFooter))
  /\ (is_string (type_of geojson) (js "FeatureCollection") = false ->
      geojsonToGpx geojson origin destination
      = Throw (Error invalid_geojson_message))
  /\ (forall type entries,
         prop geojson (js "type") = Ok (VStr (js "Feature")) ->
         feature_of geojson type entries ->
         geojsonToGpx geojson origin destination
         = Throw (Error invalid_geojson_message)).
Proof.
  split; [|split].
  - intros first others entries type entry Hc Hs Hf Ha final.
    destruct (geojsonToGpx_shaped origin destination Hc Hs Hf Ha)
      as (tracks & Etracks & ->).
    rewrite (@mapM_ok _ _ track track_text _ _ track_ok Etracks).
    unfold wpt, waypoint_text, final. rewrite <- !app_assoc. reflexivity.
  - intros Htype. apply invalid_geojson. now right.
  - intros type entries Etype _. apply invalid_geojson. right.
    unfold type_of. rewrite Etype. reflexivity.
Qed.

(** C9, as the code has it: the track of a line feature is named by the
    feature's [properties.name] when that value is truthy, and by the fixed
    literal [Rota] otherwise, which covers a feature without properties or
    without a name and a name that is the empty string; no argument of
    [geojsonToGpx] names a track. *)
Theorem track_named_by_feature_or_Rota (feature : val) :
  (forall text,
      track feature = Ok text -> is_line feature = true ->
      text = js "<trk><name>" ++ name_text feature ++ js "</name><trkseg>"
             ++ join newline (map point_text (coordinates_of feature))
             ++ js "</trkseg></trk>")
  /\ (truthy (name_of feature) = true ->
      name_text feature = to_string (name_of feature))
  /\ (truthy (name_of feature) = false -> name_text feature = js "Rota")
  /\ (forall properties,
         prop feature (js "properties") = Ok (VObj properties) ->
         name_of feature = lookup (js "name") properties)
  /\ (forall properties,
         prop feature (js "properties") = Ok properties ->
         nullish properties = true -> name_text feature = js "Rota").
Proof.
  split; [|split; [|split; [|split]]].
  - intros text E Hline. apply track_ok in E. unfold track_text in E.
    now rewrite Hline in E.
  - unfold name_text. now intros ->.
  - unfold name_text. now intros ->.
  - intros properties E. unfold name_of. now rewrite E.
  - intros properties E Hn. unfold name_text, name_of. rewrite E. cbn [bind].
    now rewrite Hn.
Qed.

Lemma collection_enters (geojson : val) (features : list val)
  (origin destination : jsstring) :
  feature_collection geojson features ->
  geojsonToGpx geojson origin destination
  = (points <- waypoints geojson origin destination ;;
     body <- gpxBody geojson ;;
     Ok (gpxHeader ++ points ++ body ++ gpxFooter)).
Proof.
  intros [Et Ef]. unfold geojsonToGpx.
  assert (truthy geojson = true) as ->.
  { destruct geojson; simpl in Et; try discriminate; reflexivity. }
  rewrite Et. reflexivity.
Qed.

Lemma missing_coordinates (geojson : val) (features : list val)
  (origin destination : jsstring) :
  feature_collection geojson features ->
  (features = []
   \/ exists first others type,
        features = first :: others /\ feature_of first type []) ->
  geojsonToGpx geojson origin destination
  = Throw (Error missing_coordinates_message).
Proof.
  intros Hc Hempty. rewrite (collection_enters _ _ Hc).
  destruct Hc as [_ Ef]. unfold waypoints.
  destruct Hempty as [-> | (first & others & type & -> & Hfirst)].
  - unfold first_coordinates. rewrite Ef. reflexivity.
  - rewrite (first_coordinates_shaped _ Ef Hfirst). reflexivity.
Qed.

(** C7, as the code has it: [geojsonToGpx] fails with its invalid-GeoJSON
    error whenever the input is falsy or its type is not [FeatureCollection],
    a single feature included.  A feature collection whose features have
    coordinates that are arrays of arrays fails, with the missing-coordinates
    error, exactly when it has no feature or the first feature has no
    coordinate entry; when none of its features is a line the conversion
    succeeds with a body that holds no track. *)
Theorem geojsonToGpx_failures (geojson : val) (origin destination : jsstring) :
  (truthy geojson = false
   \/ is_string (type_of geojson) (js "FeatureCollection") = false ->
   geojsonToGpx geojson origin destination
   = Throw (Error invalid_geojson_message))
  /\ (forall features,
         feature_collection geojson features ->
         Forall shaped_feature features ->
         ((exists e, geojsonToGpx geojson origin destination = Throw e)
          <-> (features = []
               \/ exists first others type,
                    features = first :: others /\ feature_of first type []))
         /\ (forall e,
                geojsonToGpx geojson origin destination = Throw e ->
                e = Error missing_coordinates_message)
         /\ (features <> [] ->
             Forall (fun feature => is_line feature = false) features ->
             forall out,
               geojsonToGpx geojson origin destination = Ok out ->
               exists points,
                 waypoints geojson origin destination = Ok points
                 /\ out = gpxHeader ++ points
                          ++ join newline (map (fun _ => []) features)
                          ++ gpxFooter)).
Proof.
  split; [apply invalid_geojson|].
  intros features Hc Hs.
  assert ((features = []
           \/ exists first others type,
                features = first :: others /\ feature_of first type [])
          \/ exists out, geojsonToGpx geojson origin destination = Ok out)
    as Hcases.
  { destruct features as [|first others]; [left; now left|].
    inversion Hs as [|? ? (type & entries & Hf & Ha) _]; subst.
    destruct entries as [|entry entries].
    - left. right. now exists first, others, type.
    - right.
      destruct (geojsonToGpx_shaped origin destination Hc Hs Hf Ha)
        as (tracks & _ & E).
      eauto. }
  split; [|split].
  - split.
    + intros (e & E). destruct Hcases as [Hempty | (out & Eout)];
        [exact Hempty | congruence].
    + intros Hempty. eexists. now apply (missing_coordinates _ _ Hc).
  - intros e E. destruct Hcases as [Hempty | (out & Eout)]; [|congruence].
    rewrite (missing_coordinates _ _ Hc Hempty) in E. congruence.
  - intros Hne Hlines out E.
    destruct (geojsonToGpx_parts _ _ _ E) as (points & body & Ep & Eb & ->).
    exists points. split; [exact Ep|].
    unfold gpxBody in Eb. destruct Hc as [_ Ef]. rewrite Ef in Eb.
    cbn [bind array_map] in Eb. bind_inversion Eb. injection Eb as <-.
    rewrite (@mapM_ok _ _ track track_text _ _ track_ok Ex).
    do 4 f_equal. apply map_ext_in. intros feature Hin.
    unfold track_text. rewrite Forall_forall in Hlines.
    now rewrite (Hlines feature Hin).
Qed.

End Exporter_claims.

(** ** The exporter on the worked data *)

(** The collection of the specification's example is converted to this
    document. *)
Example geojsonToGpx_sample :
  geojsonToGpx sample_collection (js "A") (js "B")
  = Ok (gpxHeader ++ newline
        ++ js "<wpt lon=" ++ quoted (js "-9.14") ++ js " lat="
        ++ quoted (js "38.7") ++ js ">" ++ newline
        ++ js "  <name>A</name>" ++ newline ++ js "</wpt>" ++ newline
        ++ js "<wpt lon=" ++ quoted (js "-9.1") ++ js " lat="
        ++ quoted (js "38.75") ++ js ">" ++ newline
        ++ js "  <name>B</name>" ++ newline ++ js "</wpt>" ++ newline
        ++ js "<trk><name>Rota</name><trkseg>"
        ++ js "<trkpt lon=" ++ quoted (js "-9.14") ++ js " lat="
        ++ quoted (js "38.7") ++ js "></trkpt>" ++ newline
        ++ js "<trkpt lon=" ++ quoted (js "-9.1") ++ js " lat="
        ++ quoted (js "38.75") ++ js "></trkpt>"
        ++ js "</trkseg></trk>" ++ gpxFooter).
Proof. reflexivity. Qed.

Lemma sample_feature_of :
  feature_of (feature sample_line []) (str "LineString")
    [pair_of "-9.14" "38.7"; pair_of "-9.1" "38.75"].
Proof. exists sample_line. repeat split. Qed.

Lemma sample_pairs_are_arrays :
  Forall is_array [pair_of "-9.14" "38.7"; pair_of "-9.1" "38.75"].
Proof. repeat constructor; eexists; reflexivity. Qed.

Lemma sample_collection_shaped :
  feature_collection sample_collection [feature sample_line []]
  /\ Forall shaped_feature [feature sample_line []].
Proof.
  split; [split; reflexivity|]. constructor; [|constructor].
  exists (str "LineString"), [pair_of "-9.14" "38.7"; pair_of "-9.1" "38.75"].
  split; [exact sample_feature_of | exact sample_pairs_are_arrays].
Qed.

(** The first part of C2 at the specification's example, whose two
    waypoints are at (-9.14, 38.7) and (-9.1, 38.75). *)
Lemma geojsonToGpx_waypoints_witness :
  geojsonToGpx sample_collection (js "A") (js "B")
  = Ok (gpxHeader ++ newline
        ++ waypoint_text (js "-9.14") (js "38.7") (js "A")
        ++ waypoint_text (js "-9.1") (js "38.75") (js "B")
        ++ join newline (map track_text [feature sample_line []])
        ++ gpxFooter).
Proof.
  exact (proj1 (@geojsonToGpx_waypoints printed_numbers sample_collection
                  (js "A") (js "B"))
           (feature sample_line []) [] [pair_of "-9.1" "38.75"]
           (str "LineString") (pair_of "-9.14" "38.7")
           (proj1 sample_collection_shaped) (proj2 sample_collection_shaped)
           sample_feature_of sample_pairs_are_arrays).
Defined.


Lemma contains_occurs (pattern text : jsstring) :
  contains pattern text = true <-> occurs pattern text.
Proof.
  split.
  - induction text as [|u text IH]; simpl; intros E.
    + rewrite orb_false_r in E. apply starts_with_prefix in E.
      destruct E as (rest & E). now exists [], rest.
    + apply orb_true_iff in E. destruct E as [E | E].
      * apply starts_with_prefix in E. destruct E as (rest & E).
        now exists [], rest.
      * destruct (IH E) as (before & after & ->). now exists (u :: before), after.
  - intros (before & after & ->). induction before as [|u before IH].
    + assert (starts_with pattern (pattern ++ after) = true) as E
        by (apply starts_with_prefix; eauto).
      simpl. destruct (pattern ++ after); simpl; now rewrite E.
    + simpl. rewrite IH. apply orb_true_r.
Qed.

(** C2 as the specification states it fails on a single line feature with
    two coordinate pairs, the shape that the component loads for a pattern:
    [geojsonToGpx] refuses it, so that no waypoint is written, and the
    document that [downloadGPX] builds for it holds track points and no
    waypoint entry. *)
Lemma single_feature_gets_no_waypoints :
  feature_of (feature sample_line []) (str "LineString")
    [pair_of "-9.14" "38.7"; pair_of "-9.1" "38.75"]
  /\ geojsonToGpx (feature sample_line []) (js "Cacilhas") (js "Lisboa")
     = Throw (Error invalid_geojson_message)
  /\ prop shape_X (js "geojson") = Ok (feature sample_line [])
  /\ exists content,
       gpxData (enriched pattern_X) shape_X = Ok content
       /\ contains (js "<trkpt") content = true
       /\ contains (js "<wpt") content = false.
Proof.
  split; [exact sample_feature_of|]. split; [reflexivity|].
  split; [reflexivity|]. eexists. split; [reflexivity|].
  split; reflexivity.
Qed.

(** C7 as the specification states it fails on a single line feature: its
    geometry is present, is a line and has two coordinate pairs, and
    [geojsonToGpx] refuses it for not being a feature collection.  It also
    fails on a collection that holds only a point feature: the point at
    longitude 0 is refused for its coordinates, while the point at
    longitude -9.14 is converted to a document without a track. *)
Lemma single_line_feature_refused :
  feature_of (feature sample_line []) (str "LineString")
    [pair_of "-9.14" "38.7"; pair_of "-9.1" "38.75"]
  /\ is_line (feature sample_line []) = true
  /\ geojsonToGpx (feature sample_line []) (js "A") (js "B")
     = Throw (Error invalid_geojson_message)
  /\ geojsonToGpx
       (collection [feature (geometry_of "Point" (pair_of "0" "38.7")) []])
       (js "A") (js "B")
     = Throw (Error missing_coordinates_message)
  /\ geojsonToGpx
       (collection [feature (geometry_of "Point" (pair_of "-9.14" "38.7")) []])
       (js "A") (js "B")
     = Ok (gpxHeader ++ newline
          ++ waypoint_text (js "undefined") (js "undefined") (js "A")
          ++ waypoint_text (js "undefined") (js "undefined") (js "B")
          ++ gpxFooter).
Proof.
  split; [exact sample_feature_of | repeat split].
Qed.

(** C9 as the specification states it fails: a line feature without a name
    is named [Rota], which no caller supplied, and so is a feature whose own
    name is present and empty. *)
Lemma track_name_is_not_supplied :
  name_of (feature sample_line []) = VUndefined
  /\ track (feature sample_line [])
     = Ok (js "<trk><name>Rota</name><trkseg>"
           ++ join newline
                (map point_text [pair_of "-9.14" "38.7"; pair_of "-9.1" "38.75"])
           ++ js "</trkseg></trk>")
  /\ name_of (feature sample_line [("name", VStr [])]%string) = VStr []
  /\ track (feature sample_line [("name", VStr [])]%string)
     = track (feature sample_line [])
  /\ geojsonToGpx (collection [feature sample_line [("name", VStr [])]%string])
       (js "A") (js "B")
     = geojsonToGpx sample_collection (js "A") (js "B").
Proof. repeat split. Qed.

(** ** The pattern fan-out *)

Section Fan_out_properties.
Context `{Runtime}.
Variable net : network.

Lemma progress_succ (patternId : val) (k : nat) :
  progress net patternId (S k) = fst (advance net (progress net patternId k)).
Proof. reflexivity. Qed.

(** Four resumptions take a task through the whole callback. *)
Lemma progress_four (patternId : val) :
  progress net patternId 4 = Settled (resolve_pattern net patternId).
Proof.
  unfold resolve_pattern. cbn [progress advance].
  destruct (ok (net (patterns_url patternId))); cbn [negb fst advance];
    [|reflexivity].
  destruct (prop (json (net (patterns_url patternId))) (js "route_id"))
    as [route_id|e] eqn:E; cbn [fst advance bind]; [|reflexivity].
  destruct (ok (net (routes_url route_id))); cbn [negb fst advance].
  - reflexivity.
  - rewrite E. reflexivity.
Qed.

Lemma settled_stays (patternId : val) (k more : nat) :
  is_settled (progress net patternId k) = true ->
  progress net patternId (k + more) = progress net patternId k.
Proof.
  intros Hs. induction more as [|more IH].
  - now rewrite Nat.add_0_r.
  - rewrite Nat.add_succ_r, progress_succ, IH.
    destruct (progress net patternId k); try discriminate. reflexivity.
Qed.

Lemma progress_outcome (patternId : val) (k : nat) (outcome : result val) :
  progress net patternId k = Settled outcome ->
  outcome = resolve_pattern net patternId.
Proof.
  intros E.
  assert (is_settled (progress net patternId k) = true) as Hs
    by now rewrite E.
  assert (progress net patternId (k + 4) = Settled (resolve_pattern net patternId))
    as E4.
  { rewrite Nat.add_comm, settled_stays; rewrite progress_four; reflexivity. }
  rewrite settled_stays in E4 by exact Hs. rewrite E in E4. now injection E4.
Qed.

Lemma progress_complete (patternId : val) (k : nat) :
  4 <= k -> progress net patternId k = Settled (resolve_pattern net patternId).
Proof.
  intros Hk. replace k with (4 + (k - 4)) by lia.
  rewrite settled_stays; rewrite progress_four; reflexivity.
Qed.

(** *** Lists updated in place *)

Lemma nth_error_replace_nth {A : Type} (l : list A) (i j : nat) (x : A) :
  nth_error (replace_nth i x l) j
  = if Nat.eqb i j
    then match nth_error l j with Some _ => Some x | None => None end
    else nth_error l j.
Proof.
  revert i j; induction l as [|y l IH]; intros [|i] [|j]; simpl;
    try reflexivity.
  - now destruct (i =? j).
  - apply IH.
Qed.

Lemma replace_nth_length {A : Type} (l : list A) (i : nat) (x : A) :
  List.length (replace_nth i x l) = List.length l.
Proof.
  revert i; induction l as [|y l IH]; intros [|i]; simpl; auto.
Qed.

Lemma In_replace_nth {A : Type} (l : list A) (i : nat) (x old : A) :
  nth_error l i = Some old -> In x (replace_nth i x l).
Proof.
  revert i; induction l as [|y l IH]; intros [|i]; simpl; try discriminate.
  - now left.
  - intros E. right. now apply IH.
Qed.

Lemma In_replace_nth_other {A : Type} (l : list A) (i : nat) (x old y : A) :
  nth_error l i = Some old -> y <> old -> In y l -> In y (replace_nth i x l).
Proof.
  revert i; induction l as [|z l IH]; intros [|i]; simpl; try discriminate.
  - intros [= ->] Hne [E | Hin]; [congruence | now right].
  - intros E Hne [-> | Hin]; [now left | right; now apply (IH i)].
Qed.

Lemma Forall_replace_nth {A : Type} (P : A -> Prop) (l : list A) (i : nat) (x : A) :
  Forall P l -> P x -> Forall P (replace_nth i x l).
Proof.
  intros Hl Hx. revert i; induction Hl as [|y l Hy Hl IH]; intros [|i]; simpl;
    constructor; auto.
Qed.

Lemma Forall2_replace_nth {A B : Type} (R : A -> B -> Prop) (la : list A)
  (lb : list B) (i : nat) (a : A) (y : B) :
  Forall2 R la lb -> nth_error la i = Some a -> R a y ->
  Forall2 R la (replace_nth i y lb).
Proof.
  intros Hl. revert i; induction Hl as [|a' b' la lb Hab Hl IH]; intros [|i];
    simpl; try discriminate.
  - intros [= ->] Hr. now constructor.
  - intros E Hr. constructor; [exact Hab | now apply IH].
Qed.

(** *** What [Promise.all] has settled with *)

Lemma all_fulfilled_settled (ts : list task) (values : list val) (i : nat) (t : task) :
  all_fulfilled ts = Some values -> nth_error ts i = Some t ->
  is_settled t = true.
Proof.
  revert values i; induction ts as [|t' ts IH]; intros values [|i]; simpl;
    try discriminate.
  - intros E [= ->]. destruct t as [| | | |[v|e]]; simpl in E; try discriminate.
    reflexivity.
  - intros E Ht. destruct (fulfilled_value t'); [|discriminate].
    destruct (all_fulfilled ts) eqn:Ets; [|discriminate].
    now apply (IH l i).
Qed.

(** Between no rejection and all fulfilled, some task is still suspended. *)
Lemma unsettled_task (ts : list task) :
  Forall (fun t => forall e, t <> Settled (Throw e)) ts ->
  all_fulfilled ts = None ->
  exists i t, nth_error ts i = Some t /\ is_settled t = false.
Proof.
  induction 1 as [|t ts Ht Hts IH]; simpl; [discriminate|].
  destruct (fulfilled_value t) eqn:Ev.
  - destruct (all_fulfilled ts); [discriminate|]. intros _.
    destruct (IH eq_refl) as (i & t' & Ei & Hs). now exists (S i), t'.
  - intros _. exists 0, t. split; [reflexivity|].
    destruct t as [| | | |[v|e]]; try reflexivity; [discriminate|].
    now destruct (Ht e).
Qed.

Lemma start_pool_invariant (patternIds : list val) :
  pool_invariant net patternIds (fst (start_pool patternIds)).
Proof.
  split; simpl.
  - induction patternIds; constructor; [now exists 0 | assumption].
  - unfold consistent. simpl. destruct patternIds as [|first rest]; simpl.
    + reflexivity.
    + split; [|reflexivity].
      apply Forall_forall. intros t Hin e ->.
      change (In (Settled (Throw e)) (map PatternFetch (first :: rest))) in Hin.
      apply in_map_iff in Hin as (id & Eid & _). discriminate.
Qed.


Lemma nth_error_Forall2 {A B : Type} (R : A -> B -> Prop) (la : list A)
  (lb : list B) (i : nat) (y : B) :
  Forall2 R la lb -> nth_error lb i = Some y ->
  exists a, nth_error la i = Some a /\ R a y.
Proof.
  intros Hl. revert i; induction Hl as [|a b la lb Hab Hl IH]; intros [|i];
    simpl; try discriminate.
  - intros [= ->]. eauto.
  - apply IH.
Qed.

Lemma pool_step_invariant (patternIds : list val) (p : pool) (i : nat) :
  pool_invariant net patternIds p ->
  pool_invariant net patternIds (fst (pool_step net p i)).
Proof.
  intros [Hpath Hcons]. unfold pool_step.
  destruct (nth_error (tasks p) i) as [t|] eqn:Et; [|now split].
  destruct (is_settled t) eqn:Hs; [now split|].
  destruct (advance net t) as [t' sent] eqn:Ea. cbn [fst].
  destruct (nth_error_Forall2 i Hpath Et) as (id & Eid & k & Ek).
  assert (on_path net id t') as Hpath'.
  { exists (S k). cbn [progress]. now rewrite <- Ek, Ea. }
  split; cbn [tasks joined].
  - eapply Forall2_replace_nth; eassumption.
  - unfold consistent in *. cbn [tasks joined].
    destruct (joined p) as [[values|e]|].
    + assert (is_settled t = true) by (eapply all_fulfilled_settled; eassumption).
      congruence.
    + eapply In_replace_nth_other; [exact Et | | exact Hcons].
      intros <-. discriminate.
    + destruct Hcons as [Hnone _]. unfold settle.
      assert (forall rejected, t' = Settled (Throw rejected) ->
              In (Settled (Throw rejected)) (replace_nth i t' (tasks p)))
        as Hrejected.
      { intros rejected ->. eapply In_replace_nth. exact Et. }
      destruct t' as [| | | |[v|e]]; try (now apply Hrejected);
        (destruct (all_fulfilled (replace_nth i _ (tasks p))) eqn:Eall;
         cbn [option_map]; [reflexivity|];
         split; [|reflexivity];
         apply Forall_replace_nth; [exact Hnone | discriminate]).
Qed.

Lemma pool_run_invariant (patternIds : list val) (schedule : list nat) :
  forall p,
    pool_invariant net patternIds p ->
    pool_invariant net patternIds (pool_run net p schedule).
Proof.
  induction schedule as [|i schedule IH]; intros p Hp; [exact Hp|].
  apply IH. now apply pool_step_invariant.
Qed.


(** *** Every schedule runs each task along its own path *)

Lemma pool_step_task (p : pool) (i j : nat) (patternId : val) (k : nat) :
  nth_error (tasks p) i = Some (progress net patternId k) ->
  nth_error (tasks (fst (pool_step net p j))) i
  = Some (progress net patternId (if Nat.eqb j i then S k else k)).
Proof.
  intros Ei. unfold pool_step.
  destruct (Nat.eqb j i) eqn:Eji.
  - apply Nat.eqb_eq in Eji as ->. rewrite Ei.
    destruct (is_settled (progress net patternId k)) eqn:Hs.
    + cbn [fst]. rewrite Ei. f_equal.
      rewrite <- (settled_stays patternId k 1 Hs). f_equal. lia.
    + destruct (advance net (progress net patternId k)) as [t' sent] eqn:Ea.
      cbn [fst tasks]. rewrite nth_error_replace_nth, Nat.eqb_refl, Ei.
      cbn [progress]. now rewrite Ea.
  - destruct (nth_error (tasks p) j) as [t|]; [|exact Ei].
    destruct (is_settled t); [exact Ei|].
    destruct (advance net t) as [t' sent]. cbn [fst tasks].
    now rewrite nth_error_replace_nth, Eji.
Qed.

Lemma pool_run_task (schedule : list nat) (i : nat) (patternId : val) :
  forall p k,
    nth_error (tasks p) i = Some (progress net patternId k) ->
    nth_error (tasks (pool_run net p schedule)) i
    = Some (progress net patternId (k + count_occ Nat.eq_dec schedule i)).
Proof.
  induction schedule as [|j schedule IH]; intros p k Ei.
  - simpl. now rewrite Nat.add_0_r.
  - cbn [pool_run fold_left]. fold (pool_run net (fst (pool_step net p j)) schedule).
    erewrite IH by (apply pool_step_task; exact Ei). f_equal. f_equal.
    cbn [count_occ]. destruct (Nat.eq_dec j i) as [->|Hne].
    + rewrite Nat.eqb_refl. lia.
    + apply Nat.eqb_neq in Hne. rewrite Hne. reflexivity.
Qed.

Lemma start_pool_task (patternIds : list val) (i : nat) (t : task) :
  nth_error (tasks (fst (start_pool patternIds))) i = Some t ->
  exists patternId,
    nth_error patternIds i = Some patternId /\ t = progress net patternId 0.
Proof.
  cbn [start_pool fst tasks]. rewrite nth_error_map.
  destruct (nth_error patternIds i) as [patternId|]; [|discriminate].
  intros [= <-]. now exists patternId.
Qed.

(** A complete schedule settles [Promise.all]. *)
Lemma complete_settles (patternIds : list val) (schedule : list nat) :
  complete (List.length patternIds) schedule ->
  joined (pool_run net (fst (start_pool patternIds)) schedule) <> None.
Proof.
  intros Hc Hnone.
  pose proof (pool_run_invariant schedule (start_pool_invariant patternIds))
    as [Hpath Hcons].
  unfold consistent in Hcons. rewrite Hnone in Hcons.
  destruct Hcons as [Hrej Hall].
  destruct (unsettled_task Hrej Hall) as (i & t & Ei & Hs).
  destruct (nth_error_Forall2 i Hpath Ei) as (patternId & Eid & _).
  assert (i < List.length patternIds) as Hi
    by (apply nth_error_Some; congruence).
  assert (nth_error (tasks (fst (start_pool patternIds))) i
          = Some (progress net patternId 0)) as E0.
  { cbn [start_pool fst tasks]. rewrite nth_error_map, Eid. reflexivity. }
  erewrite pool_run_task in Ei by exact E0. injection Ei as <-.
  rewrite progress_complete in Hs; [discriminate|].
  specialize (Hc i Hi). lia.
Qed.

(** *** What the settlement says about the requests *)

Lemma fulfilled_in_order (patternIds : list val) (ts : list task)
  (values : list val) :
  Forall2 (on_path net) patternIds ts ->
  all_fulfilled ts = Some values ->
  Forall2 (fun patternId v => resolve_pattern net patternId = Ok v)
    patternIds values.
Proof.
  intros Hpath. revert values.
  induction Hpath as [|patternId t ids ts (k & Ek) _ IH]; intros values; simpl.
  - intros [= <-]. constructor.
  - destruct (fulfilled_value t) as [v|] eqn:Ev; [|discriminate].
    destruct (all_fulfilled ts) as [vs|]; [|discriminate].
    intros [= <-]. constructor; [|now apply IH].
    destruct t as [| | | |[v'|e]]; try discriminate.
    injection Ev as ->. symmetry.
    eapply progress_outcome. symmetry. exact Ek.
Qed.

Lemma rejected_by_one (patternIds : list val) (ts : list task) (e : exn) :
  Forall2 (on_path net) patternIds ts ->
  In (Settled (Throw e)) ts ->
  exists patternId,
    In patternId patternIds /\ resolve_pattern net patternId = Throw e.
Proof.
  induction 1 as [|patternId t ids ts (k & Ek) _ IH]; simpl; [tauto|].
  intros [-> | Hin].
  - exists patternId. split; [now left|]. symmetry.
    eapply progress_outcome. symmetry. exact Ek.
  - destruct (IH Hin) as (id & Hid & E). exists id. split; [now right|exact E].
Qed.



(** *** The fan-out inside a search *)

Lemma pool_step_joined (p : pool) (i : nat) (outcome : result (list val)) :
  joined p = Some outcome -> joined (fst (pool_step net p i)) = Some outcome.
Proof.
  intros E. unfold pool_step.
  destruct (nth_error (tasks p) i) as [t|]; [|exact E].
  destruct (is_settled t); [exact E|].
  destruct (advance net t). cbn [fst joined]. now rewrite E.
Qed.

Lemma pool_run_joined (schedule : list nat) (outcome : result (list val)) :
  forall p, joined p = Some outcome ->
            joined (pool_run net p schedule) = Some outcome.
Proof.
  induction schedule as [|i schedule IH]; intros p E; [exact E|].
  apply IH. now apply pool_step_joined.
Qed.

Lemma resume_fan_out (a : app) (p : pool) (i : nat) :
  suspended a = [SearchPatterns p] ->
  suspended (step net a (Resumed 0 i)) = [SearchPatterns (fst (pool_step net p i))]
  /\ ui (step net a (Resumed 0 i))
     = match joined p, joined (fst (pool_step net p i)) with
       | None, Some outcome => finish_search outcome (ui a)
       | _, _ => ui a
       end.
Proof.
  intros Es. cbn [step]. rewrite Es. cbn [nth_error].
  unfold resume_search_patterns. destruct (pool_step net p i) as [p' sent].
  cbn [ui suspended fst]. rewrite Es. split; reflexivity.
Qed.

Lemma run_fan_out_settled (schedule : list nat) :
  forall a p outcome,
    suspended a = [SearchPatterns p] -> joined p = Some outcome ->
    suspended (run net a (map (Resumed 0) schedule))
    = [SearchPatterns (pool_run net p schedule)]
    /\ ui (run net a (map (Resumed 0) schedule)) = ui a.
Proof.
  induction schedule as [|i schedule IH]; intros a p outcome Es Ej.
  - now split.
  - destruct (resume_fan_out a i Es) as [Es' Eui]. rewrite Ej in Eui.
    cbn [map run fold_left pool_run].
    destruct (IH _ _ _ Es' (pool_step_joined _ i Ej)) as [IHs IHui].
    split; [exact IHs|]. unfold run in IHui. now rewrite IHui.
Qed.

Lemma run_fan_out (schedule : list nat) :
  forall a p,
    suspended a = [SearchPatterns p] -> joined p = None ->
    suspended (run net a (map (Resumed 0) schedule))
    = [SearchPatterns (pool_run net p schedule)]
    /\ ui (run net a (map (Resumed 0) schedule))
       = match joined (pool_run net p schedule) with
         | Some outcome => finish_search outcome (ui a)
         | None => ui a
         end.
Proof.
  induction schedule as [|i schedule IH]; intros a p Es Ej.
  - cbn [map run fold_left pool_run]. rewrite Ej. now split.
  - destruct (resume_fan_out a i Es) as [Es' Eui]. rewrite Ej in Eui.
    cbn [map run fold_left pool_run].
    destruct (joined (fst (pool_step net p i))) as [outcome|] eqn:Ej'.
    + destruct (run_fan_out_settled schedule _ Es' Ej') as [IHs IHui].
      split; [exact IHs|]. unfold run in IHui. rewrite IHui, Eui.
      fold (pool_run net (fst (pool_step net p i)) schedule).
      now rewrite (pool_run_joined schedule _ Ej').
    + destruct (IH _ _ Es' Ej') as [IHs IHui].
      split; [exact IHs|]. unfold run in IHui. now rewrite IHui, Eui.
Qed.

Lemma Forall2_In_l {A B : Type} (R : A -> B -> Prop) (la : list A)
  (lb : list B) (a : A) :
  Forall2 R la lb -> In a la -> exists b, In b lb /\ R a b.
Proof.
  induction 1 as [|x y la lb Hxy _ IH]; simpl; [tauto|].
  intros [<- | Hin].
  - exists y. split; [now left | exact Hxy].
  - destruct (IH Hin) as (b & Hb & Hr). exists b. split; [now right | exact Hr].
Qed.

Lemma mapM_Ok (items : list val) :
  mapM (fun id : val => Ok id) items = Ok items.
Proof. induction items as [|x l IH]; simpl; [|rewrite IH]; reflexivity. Qed.

Lemma search_begins (a : app) :
  trim (routeNumber (ui a)) <> [] ->
  searchRoute a
  = {| ui := setPatterns []
               (setShapeData VNull
                  (setSelectedPattern VNull
                     (setRouteDetails VNull
                        (setError [] (setLoading true (ui a))))));
       suspended := suspended a ++ [SearchLine (lines_url (routeNumber (ui a)))];
       requests := requests a ++ [lines_url (routeNumber (ui a))];
       effects := effects a |}.
Proof.
  intros Htext. unfold searchRoute. cbn [truthy].
  destruct (trim (routeNumber (ui a))); [congruence|reflexivity].
Qed.

Lemma resume_line_ok (a : app) (url : jsstring) (i : nat) :
  suspended a = [SearchLine url] -> ok (net url) = true ->
  step net a (Resumed 0 i)
  = {| ui := ui a; suspended := [SearchLineJson (net url)];
       requests := requests a; effects := effects a |}.
Proof.
  intros Es Hok. cbn [step]. rewrite Es. cbn [nth_error].
  unfold resume_search_line. now rewrite Hok, Es.
Qed.

Lemma resume_json_patterns (a : app) (lineResponse : response)
  (patternIds : list val) (i : nat) :
  suspended a = [SearchLineJson lineResponse] ->
  prop (json lineResponse) (js "patterns") = Ok (VArr patternIds) ->
  step net a (Resumed 0 i)
  = match patternIds with
    | [] =>
        {| ui := finish_search (Ok []) (setRouteDetails (json lineResponse) (ui a));
           suspended := []; requests := requests a ++ [];
           effects := effects a |}
    | _ :: _ =>
        {| ui := setRouteDetails (json lineResponse) (ui a);
           suspended := [SearchPatterns (fst (start_pool patternIds))];
           requests := requests a ++ map patterns_url patternIds;
           effects := effects a |}
    end.
Proof.
  intros Es Hpatterns. cbn [step]. rewrite Es. cbn [nth_error].
  unfold resume_search_json. rewrite Hpatterns. cbn [bind array_map].
  rewrite mapM_Ok, Es. destruct patternIds; reflexivity.
Qed.

Lemma idle_run (a : app) (schedule : list nat) :
  suspended a = [] -> run net a (map (Resumed 0) schedule) = a.
Proof.
  intros Es. induction schedule as [|i schedule IH]; [reflexivity|].
  cbn [map run fold_left step]. rewrite Es. exact IH.
Qed.


End Fan_out_properties.


(** C4: whatever the order in which the responses arrive, the list that the
    fan-out is fulfilled with has, at each place, what the identifier at
    that place resolves to; and when every identifier resolves, a schedule
    that lets every response arrive ends with that list. *)
Theorem fan_out_keeps_order `{Runtime} (net : network) (patternIds : list val)
  (schedule : list nat) :
  let settled := joined (pool_run net (fst (start_pool patternIds)) schedule) in
  (forall patternsData,
      settled = Some (Ok patternsData) ->
      Forall2 (fun patternId pattern => resolve_pattern net patternId = Ok pattern)
        patternIds patternsData)
  /\ (forall patternsData,
         Forall2 (fun patternId pattern => resolve_pattern net patternId = Ok pattern)
           patternIds patternsData ->
         complete (List.length patternIds) schedule ->
         settled = Some (Ok patternsData)).
Proof.
  intros settled.
  pose proof (@pool_run_invariant _ net patternIds schedule _
                (start_pool_invariant net patternIds))
    as [Hpath Hcons].
  unfold consistent in Hcons. fold settled in Hcons.
  split.
  - intros patternsData E. rewrite E in Hcons.
    exact (@fulfilled_in_order _ net _ _ _ Hpath Hcons).
  - intros patternsData Hall Hcomplete.
    pose proof (@complete_settles _ net patternIds schedule Hcomplete) as Hsome.
    fold settled in Hsome.
    destruct settled as [[values|e]|]; [| |congruence].
    + f_equal. f_equal.
      pose proof (@fulfilled_in_order _ net _ _ _ Hpath Hcons) as Hvalues.
      clear - Hall Hvalues. revert values Hvalues.
      induction Hall as [|id v ids vs Ev _ IH]; intros values Hvalues;
        inversion Hvalues; subst; [reflexivity|].
      f_equal; [congruence | now apply IH].
    + destruct (@rejected_by_one _ net patternIds _ _ Hpath Hcons)
      as (patternId & Hin & Er).
      destruct (@Forall2_In_l _ _ _ _ _ patternId Hall Hin) as (v & _ & Ev).
      congruence.
Qed.

(** ** The handlers *)

Lemma trim_start_nil (s : jsstring) :
  trim_start s = [] <-> Forall (fun u => is_whitespace u = true) s.
Proof.
  induction s as [|u s IH]; simpl.
  - split; [constructor | reflexivity].
  - destruct (is_whitespace u) eqn:Hu.
    + rewrite IH. split; [now constructor | now inversion 1].
    + split; [discriminate | inversion 1; congruence].
Qed.

Lemma trim_start_head (s rest : jsstring) (u : code_unit) :
  trim_start s = u :: rest -> is_whitespace u = false.
Proof.
  induction s as [|w s IH]; simpl; [discriminate|].
  destruct (is_whitespace w) eqn:Hw; [exact IH|]. now intros [= <- _].
Qed.

(** A text is empty after [trim] exactly when it is all whitespace. *)
Lemma trim_nil (s : jsstring) :
  trim s = [] <-> Forall (fun u => is_whitespace u = true) s.
Proof.
  unfold trim. split.
  - intros E. apply (f_equal (@rev code_unit)) in E.
    rewrite rev_involutive in E. cbn [rev] in E.
    apply trim_start_nil in E. apply Forall_rev in E.
    rewrite rev_involutive in E.
    destruct (trim_start s) as [|u rest] eqn:Es.
    + now apply trim_start_nil.
    + apply trim_start_head in Es. inversion E; congruence.
  - intros Hs. apply trim_start_nil in Hs. now rewrite Hs.
Qed.

Section Handler_claims.
Context `{Runtime}.
Variable net : network.

(** C8: with a route number that is empty after trimming, which is to say
    all whitespace, [searchRoute] sets its error message and does nothing
    else: it sends no request and suspends nothing.  With any other route
    number it clears the error, marks the component as loading and sends
    the request for the line. *)
Theorem searchRoute_validates (a : app) :
  (trim (routeNumber (ui a)) = []
   <-> Forall (fun u => is_whitespace u = true) (routeNumber (ui a)))
  /\ (trim (routeNumber (ui a)) = [] ->
      step net a SearchClicked
      = with_ui (setError empty_route_number_message (ui a)) a
      /\ requests (step net a SearchClicked) = requests a
      /\ suspended (step net a SearchClicked) = suspended a)
  /\ (trim (routeNumber (ui a)) <> [] ->
      requests (step net a SearchClicked)
      = requests a ++ [lines_url (routeNumber (ui a))]
      /\ suspended (step net a SearchClicked)
         = suspended a ++ [SearchLine (lines_url (routeNumber (ui a)))]
      /\ error (ui (step net a SearchClicked)) = []
      /\ loading (ui (step net a SearchClicked)) = true).
Proof.
  split; [apply trim_nil|]. split.
  - intros E. cbn [step]. unfold searchRoute. rewrite E. now cbn.
  - intros Hne. cbn [step]. rewrite search_begins by exact Hne. now cbn.
Qed.

(** C10: when no pattern is selected, no shape is loaded or no line details
    are present (the value is [null], or falsy at all), [downloadGPX] sets
    its error message and returns: nothing is downloaded or logged, no
    request is sent, and the rest of the state is as it was. *)
Theorem downloadGPX_needs_selection (a : app) :
  truthy (selectedPattern (ui a)) = false
  \/ truthy (shapeData (ui a)) = false
  \/ truthy (routeDetails (ui a)) = false ->
  let a' := step net a DownloadClicked in
  a' = with_ui (setError nothing_selected_message (ui a)) a
  /\ error (ui a') = nothing_selected_message
  /\ effects a' = effects a
  /\ requests a' = requests a
  /\ suspended a' = suspended a
  /\ selectedPattern (ui a') = selectedPattern (ui a)
  /\ shapeData (ui a') = shapeData (ui a)
  /\ routeDetails (ui a') = routeDetails (ui a)
  /\ patterns (ui a') = patterns (ui a).
Proof.
  intros Hmissing a'.
  assert (a' = with_ui (setError nothing_selected_message (ui a)) a) as ->.
  { unfold a'. cbn [step]. unfold downloadGPX.
    destruct Hmissing as [-> | [-> | ->]]; cbn [negb orb];
      rewrite ?orb_true_r; reflexivity. }
  repeat split.
Qed.

(** *** The loaded shape *)

Lemma Forall_remove_nth {A : Type} (P : A -> Prop) (l : list A) (k : nat) :
  Forall P l -> Forall P (remove_nth k l).
Proof.
  intros Hl. revert k; induction Hl as [|x l Hx Hl IH]; intros [|k]; simpl;
    auto.
Qed.

Lemma Forall_nth_error {A : Type} (P : A -> Prop) (l : list A) (k : nat) (x : A) :
  Forall P l -> nth_error l k = Some x -> P x.
Proof.
  intros Hl E. rewrite Forall_forall in Hl. apply Hl.
  now apply nth_error_In with k.
Qed.

Lemma pending_known_more (selected selected' : val -> Prop) (c : pending) :
  (forall pattern, selected pattern -> selected' pattern) ->
  pending_known net selected c -> pending_known net selected' c.
Proof.
  intros Hmore. destruct c; simpl; trivial.
  - intros (pattern & shape_id & Hs & E). exists pattern, shape_id. auto.
  - intros (pattern & shape_id & Hs & E). exists pattern, shape_id. auto.
Qed.

Lemma shape_invariant_more (selected selected' : val -> Prop) (a : app) :
  (forall pattern, selected pattern -> selected' pattern) ->
  shape_invariant net selected a -> shape_invariant net selected' a.
Proof.
  intros Hmore [Hshape Hpending]. split.
  - destruct Hshape as [E | (pattern & Hs & Hf)]; [now left|].
    right. exists pattern. auto.
  - eapply Forall_impl; [|exact Hpending].
    intros c. now apply pending_known_more.
Qed.

Lemma finish_search_shape (outcome : result (list val)) (st : state) :
  shapeData (finish_search outcome st) = shapeData st.
Proof. now destruct outcome. Qed.

(** Resuming a handler keeps the invariant. *)
Lemma resume_shape_invariant (selected : val -> Prop) (a : app) (k i : nat) :
  shape_invariant net selected a ->
  shape_invariant net selected (step net a (Resumed k i)).
Proof.
  intros [Hshape Hpending]. cbn [step].
  destruct (nth_error (suspended a) k) as [c|] eqn:Ec; [|now split].
  pose proof (@Forall_nth_error _ _ _ _ _ Hpending Ec) as Hc.
  destruct c as [url | lineResponse | fanout | url | shapeResponse].
  - unfold resume_search_line. destruct (ok (net url)); cbn [negb].
    + split; cbn [ui suspended]; [exact Hshape|].
      apply Forall_replace_nth; [exact Hpending | exact I].
    + split; cbn [ui suspended];
        [now rewrite finish_search_shape | now apply Forall_remove_nth].
  - unfold resume_search_json.
    destruct (ids <- prop (json lineResponse) (js "patterns");;
              array_map ids (fun id : val => Ok id)) as [patternIds|e].
    + destruct (start_pool patternIds) as [fanout sent].
      destruct (joined fanout); split; cbn [ui suspended];
        rewrite ?finish_search_shape; try exact Hshape.
      * now apply Forall_remove_nth.
      * apply Forall_replace_nth; [exact Hpending | exact I].
    + split; cbn [ui suspended];
        [now rewrite finish_search_shape | now apply Forall_remove_nth].
  - unfold resume_search_patterns.
    destruct (pool_step net fanout i) as [fanout' sent].
    split; cbn [ui suspended].
    + destruct (joined fanout); [exact Hshape|].
      destruct (joined fanout'); [now rewrite finish_search_shape|exact Hshape].
    + apply Forall_replace_nth; [exact Hpending | exact I].
  - unfold resume_shape_fetch. destruct (ok (net url)) eqn:Hok; cbn [negb].
    + split; cbn [ui suspended]; [exact Hshape|].
      apply Forall_replace_nth; [exact Hpending|].
      destruct Hc as (pattern & shape_id & Hs & Ep & ->).
      exists pattern, shape_id. auto.
    + split; cbn [ui suspended]; [exact Hshape | now apply Forall_remove_nth].
  - unfold resume_shape_json. split; cbn [ui suspended shapeData setShapeData].
    + right. destruct Hc as (pattern & shape_id & Hs & Ep & -> & Hok).
      exists pattern. split; [exact Hs|]. now exists shape_id.
    + now apply Forall_remove_nth.
Qed.

Lemma step_shape_invariant (selected : val -> Prop) (a : app) (e : event) :
  shape_invariant net selected a ->
  shape_invariant net
    (fun pattern => selected pattern \/ e = PatternClicked pattern)
    (step net a e).
Proof.
  intros Ha.
  assert (shape_invariant net
            (fun pattern => selected pattern \/ e = PatternClicked pattern) a)
    as [Hshape Hpending]
    by (eapply shape_invariant_more; [|exact Ha]; intros pattern Hp; now left).
  destruct e as [text | | pattern | | k i].
  - now split.
  - cbn [step]. unfold searchRoute.
    destruct (negb (truthy (VStr (trim (routeNumber (ui a)))))); [now split|].
    split; cbn [ui suspended shapeData setPatterns setShapeData]; [now left|].
    apply Forall_app. split; [exact Hpending|]. now repeat constructor.
  - cbn [step]. unfold fetchPattern.
    destruct (prop pattern (js "shape_id")) as [shape_id|err] eqn:Ep;
      [|now split].
    split; cbn [ui suspended]; [exact Hshape|].
    apply Forall_app. split; [exact Hpending|]. constructor; [|constructor].
    exists pattern, shape_id. auto.
  - cbn [step]. unfold downloadGPX.
    destruct (negb (truthy (selectedPattern (ui a)))
              || negb (truthy (shapeData (ui a)))
              || negb (truthy (routeDetails (ui a)))); [now split|].
    destruct (content <- gpxData (selectedPattern (ui a)) (shapeData (ui a));;
              filename <- download_name (routeDetails (ui a))
                            (selectedPattern (ui a));;
              Ok (Download filename content)); now split.
  - apply resume_shape_invariant. now split.
Qed.

Lemma run_shape_invariant (events : list event) :
  shape_invariant net (fun pattern => In (PatternClicked pattern) events)
    (run net initial_app events).
Proof.
  induction events as [|e events IH] using rev_ind.
  - split; [now left | constructor].
  - unfold run. rewrite fold_left_app. cbn [fold_left].
    eapply shape_invariant_more; [|apply step_shape_invariant; exact IH].
    intros pattern [Hin | ->]; apply in_or_app; [now left | right; now left].
Qed.

(** C5, as the code has it: in every state that the handlers and the event
    loop reach, the loaded shape is absent or is the document that the API
    serves for the shape of a pattern that was clicked at some time, which
    need not be the pattern now selected.  Clicking a pattern records it as
    selected and leaves the loaded shape in place; the document of a shape
    response is loaded when it arrives, whatever is selected by then; a
    search that passes validation clears both. *)
Theorem loaded_shape_of_a_clicked_pattern (events : list event) :
  let a := run net initial_app events in
  (shapeData (ui a) = VNull
   \/ exists pattern,
        In (PatternClicked pattern) events
        /\ fetched_for net pattern (shapeData (ui a)))
  /\ (forall pattern,
         selectedPattern (ui (step net a (PatternClicked pattern))) = pattern
         /\ shapeData (ui (step net a (PatternClicked pattern)))
            = shapeData (ui a))
  /\ (forall k i shapeResponse,
         nth_error (suspended a) k = Some (ShapeJson shapeResponse) ->
         shapeData (ui (step net a (Resumed k i))) = json shapeResponse
         /\ selectedPattern (ui (step net a (Resumed k i)))
            = selectedPattern (ui a))
  /\ (trim (routeNumber (ui a)) <> [] ->
      shapeData (ui (step net a SearchClicked)) = VNull
      /\ selectedPattern (ui (step net a SearchClicked)) = VNull).
Proof.
  intros a. split; [|split; [|split]].
  - exact (proj1 (run_shape_invariant events)).
  - intros pattern. cbn [step]. unfold fetchPattern.
    destruct (prop pattern (js "shape_id")); split; reflexivity.
  - intros k i shapeResponse E. cbn [step]. rewrite E. split; reflexivity.
  - intros Hne. cbn [step]. rewrite search_begins by exact Hne.
    split; reflexivity.
Qed.

End Handler_claims.

(** ** The handlers on the worked data *)



(** The same list in the same order, whichever responses arrive first; and
    one refused pattern rejects the whole fan-out with the error that names
    it. *)
Example fan_out_samples :
  joined (pool_run sample_network (fst (start_pool [str "p1"; str "p2"]))
            [0; 1; 0; 1; 0; 1; 0; 1])
  = Some (Ok [enriched pattern_X; enriched pattern_Y])
  /\ joined (pool_run sample_network (fst (start_pool [str "p1"; str "p2"]))
               [1; 1; 1; 1; 0; 0; 0; 0])
     = Some (Ok [enriched pattern_X; enriched pattern_Y])
  /\ joined (pool_run sample_network (fst (start_pool [str "p1"; str "p2"]))
               [1; 1; 1; 1; 0; 0; 0])
     = None
  /\ joined (pool_run sample_network (fst (start_pool [str "p1"; str "p9"]))
               [0; 0; 0; 0; 1])
     = Some (Throw (Error (pattern_error_message (str "p9"))))
  /\ pattern_error_message (str "p9")
     = js "Erro ao carregar o padr" ++ [227%N] ++ js "o p9".
Proof. repeat split. Qed.

(** The hypothesis of C10 holds before anything is selected. *)
Lemma downloadGPX_needs_selection_witness :
  truthy (selectedPattern (ui (@initial_app printed_numbers))) = false
  /\ step sample_network initial_app DownloadClicked
     = with_ui (setError nothing_selected_message initial_state) initial_app.
Proof.
  split; [reflexivity|].
  exact (proj1 (@downloadGPX_needs_selection printed_numbers sample_network
                  initial_app
                  (or_introl eq_refl))).
Defined.

(** C5 as the specification states it fails.  After a search for line 1001
    the first pattern is clicked and then the second; the shape of the
    second arrives first and the shape of the first after it: the second
    pattern is selected and the shape of the first is loaded.  And a click
    on the second pattern once the shape of the first is loaded leaves that
    shape in place. *)
Lemma stale_shape_is_loaded :
  patterns (ui (run sample_network initial_app sample_search))
  = [enriched pattern_X; enriched pattern_Y]
  /\ selectedPattern (ui (run sample_network initial_app sample_race))
     = enriched pattern_Y
  /\ shapeData (ui (run sample_network initial_app sample_race)) = shape_X
  /\ selectedPattern
       (ui (run sample_network initial_app
              (sample_search
               ++ [PatternClicked (enriched pattern_X); Resumed 1 0; Resumed 1 0;
                   PatternClicked (enriched pattern_Y)])))
     = enriched pattern_Y
  /\ shapeData
       (ui (run sample_network initial_app
              (sample_search
               ++ [PatternClicked (enriched pattern_X); Resumed 1 0; Resumed 1 0;
                   PatternClicked (enriched pattern_Y)])))
     = shape_X
  /\ fetched_for sample_network (enriched pattern_X) shape_X
  /\ fetched_for sample_network (enriched pattern_Y) shape_Y
  /\ shape_X <> shape_Y.
Proof.
  repeat split; try (now exists (str "s1")); try (now exists (str "s2")).
  intros E. vm_compute in E. congruence.
Qed.

(** What the download button gives once the first pattern is selected and
    its shape loaded: a track named by the headsign, and no waypoint. *)
Example downloadGPX_sample :
  effects
    (run sample_network initial_app
       (sample_search
        ++ [PatternClicked (enriched pattern_X); Resumed 1 0; Resumed 1 0;
            DownloadClicked]))
  = [Download (js "rota-1001-Cacilhas---Lisboa.gpx")
       (js "<?xml version=" ++ quoted (js "1.0") ++ js " encoding="
        ++ quoted (js "UTF-8") ++ js "?>" ++ newline
        ++ js "<gpx version=" ++ quoted (js "1.1") ++ js " creator="
        ++ quoted (js "Carris Metropolitana") ++ js ">" ++ newline
        ++ js "  <trk>" ++ newline
        ++ js "    <name>Cacilhas - Lisboa</name>" ++ newline
        ++ js "    <trkseg>" ++ newline
        ++ js "      <trkpt lat=" ++ quoted (js "38.7") ++ js " lon="
        ++ quoted (js "-9.14") ++ js "></trkpt>" ++ newline
        ++ js "      <trkpt lat=" ++ quoted (js "38.75") ++ js " lon="
        ++ quoted (js "-9.1") ++ js "></trkpt>" ++ newline
        ++ js "    </trkseg>" ++ newline
        ++ js "  </trk>" ++ newline
        ++ js "</gpx>")].
Proof. reflexivity. Qed.

(** X1: the document that [downloadGPX] hands to the browser is the fixed
    header, one track named by the headsign of the selected pattern, one
    track point for each coordinate pair of the loaded shape with [lat]
    before [lon], and the closing tags; it holds no waypoint. *)
Theorem downloadGPX_document `{Runtime} (selectedPattern shapeData : val)
  (content : jsstring) :
  gpxData selectedPattern shapeData = Ok content ->
  exists headsign,
    prop selectedPattern (js "headsign") = Ok headsign
    /\ content
       = js "<?xml version=" ++ quoted (js "1.0") ++ js " encoding="
         ++ quoted (js "UTF-8") ++ js "?>" ++ newline
         ++ js "<gpx version=" ++ quoted (js "1.1") ++ js " creator="
         ++ quoted (js "Carris Metropolitana") ++ js ">" ++ newline
         ++ js "  <trk>" ++ newline
         ++ js "    <name>" ++ to_string headsign ++ js "</name>" ++ newline
         ++ js "    <trkseg>" ++ newline
         ++ join newline (map download_point_text (shape_points shapeData))
         ++ newline
         ++ js "    </trkseg>" ++ newline
         ++ js "  </trk>" ++ newline
         ++ js "</gpx>".
Proof. apply gpxData_text. Qed.

(** The hypothesis of X1 holds of the first pattern and its shape. *)
Lemma downloadGPX_document_witness :
  exists content,
    gpxData (enriched pattern_X) shape_X = Ok content
    /\ exists headsign,
         prop (enriched pattern_X) (js "headsign") = Ok headsign
         /\ content
            = js "<?xml version=" ++ quoted (js "1.0") ++ js " encoding="
              ++ quoted (js "UTF-8") ++ js "?>" ++ newline
              ++ js "<gpx version=" ++ quoted (js "1.1") ++ js " creator="
              ++ quoted (js "Carris Metropolitana") ++ js ">" ++ newline
              ++ js "  <trk>" ++ newline
              ++ js "    <name>" ++ to_string headsign ++ js "</name>" ++ newline
              ++ js "    <trkseg>" ++ newline
              ++ join newline (map download_point_text (shape_points shape_X))
              ++ newline
              ++ js "    </trkseg>" ++ newline
              ++ js "  </trk>" ++ newline
              ++ js "</gpx>".
Proof.
  eexists. split; [reflexivity|].
  exact (@downloadGPX_document printed_numbers (enriched pattern_X) shape_X _
           eq_refl).
Defined.

(** * Further properties of the code *)

(** ** The file name and the effects of downloadGPX *)

Lemma replace_runs_no_whitespace (s : jsstring) :
  forall in_run,
    Forall (fun u => is_whitespace u = false) (replace_runs in_run s).
Proof.
  induction s as [|u s IH]; intros in_run; simpl; [constructor|].
  destruct (is_whitespace u) eqn:Hu.
  - destruct in_run; [apply IH|]. constructor; [reflexivity | apply IH].
  - constructor; [exact Hu | apply IH].
Qed.

Lemma replace_runs_length (s : jsstring) :
  forall in_run, List.length (replace_runs in_run s) <= List.length s.
Proof.
  induction s as [|u s IH]; intros in_run; simpl; [lia|].
  pose proof (IH true). pose proof (IH false).
  destruct (is_whitespace u); [destruct in_run|]; simpl; lia.
Qed.

Lemma replace_runs_word (word : jsstring) :
  Forall (fun u => is_whitespace u = false) word ->
  forall in_run rest,
    word <> [] \/ in_run = false ->
    replace_runs in_run (word ++ rest) = word ++ replace_runs false rest.
Proof.
  induction 1 as [|u word Hu _ IH]; intros in_run rest Hstart.
  - destruct Hstart as [Hne | ->]; [congruence | reflexivity].
  - simpl. rewrite Hu. f_equal. apply IH. now right.
Qed.

Lemma replace_runs_blank (run : jsstring) :
  Forall (fun u => is_whitespace u = true) run ->
  forall rest, replace_runs true (run ++ rest) = replace_runs true rest.
Proof.
  induction 1 as [|u run Hu _ IH]; intros rest; simpl; [reflexivity|].
  rewrite Hu. apply IH.
Qed.

Lemma replace_runs_after_blank (rest : jsstring) :
  is_whitespace (hd 0%N rest) = false ->
  replace_runs true rest = replace_runs false rest.
Proof. destruct rest as [|u rest]; simpl; [reflexivity|]. now intros ->. Qed.

(** X2: the headsign part of a download's file name holds no whitespace and
    is never longer than the headsign: [replace] leaves a word as it is and
    writes one hyphen for a whole run of whitespace between two words.  The
    short name of the line is written as it is. *)
Theorem download_name_has_no_blank `{Runtime} (routeDetails selectedPattern : val)
  (name : jsstring) :
  download_name routeDetails selectedPattern = Ok name ->
  exists short_name headsign,
    prop routeDetails (js "short_name") = Ok short_name
    /\ prop selectedPattern (js "headsign") = Ok (VStr headsign)
    /\ name = js "rota-" ++ to_string short_name ++ js "-"
              ++ replace_whitespace headsign ++ js ".gpx"
    /\ Forall (fun u => is_whitespace u = false) (replace_whitespace headsign)
    /\ List.length (replace_whitespace headsign) <= List.length headsign
    /\ (forall word run rest,
           headsign = word ++ run ++ rest ->
           Forall (fun u => is_whitespace u = false) word ->
           run <> [] -> Forall (fun u => is_whitespace u = true) run ->
           is_whitespace (hd 0%N rest) = false ->
           replace_whitespace headsign
           = word ++ [45%N] ++ replace_whitespace rest)
    /\ (Forall (fun u => is_whitespace u = false) headsign ->
        replace_whitespace headsign = headsign).
Proof.
  unfold download_name. intros E. bind_inversion E. bind_inversion E.
  destruct x0 as [| | | |headsign| |]; try discriminate. injection E as <-.
  exists x, headsign. split; [exact Ex|]. split; [exact Ex0|].
  split; [reflexivity|]. split; [apply replace_runs_no_whitespace|].
  split; [apply replace_runs_length|]. split.
  - intros word run rest -> Hword Hne Hrun Hrest. unfold replace_whitespace.
    rewrite (replace_runs_word Hword) by now right.
    f_equal. destruct Hrun as [|u run Hu Hrun]; [congruence|].
    simpl. rewrite Hu. f_equal. rewrite (replace_runs_blank Hrun).
    now apply replace_runs_after_blank.
  - intros Hword. unfold replace_whitespace.
    rewrite <- (app_nil_r headsign) at 1.
    rewrite (replace_runs_word Hword) by now right.
    simpl. apply app_nil_r.
Qed.

(** X3: whatever the state, [downloadGPX] sends no request, suspends
    nothing, and leaves the route number, the line details, the patterns,
    the selection, the loaded shape and the loading flag as they are.  It
    either refuses (one of its two error messages is set; a failure of the
    conversion is also logged) or adds exactly one download and leaves the
    error message as it was, so an earlier error stays on display after a
    download. *)
Theorem downloadGPX_changes_nothing_else `{Runtime} (net : network) (a : app) :
  let a' := step net a DownloadClicked in
  requests a' = requests a
  /\ suspended a' = suspended a
  /\ routeNumber (ui a') = routeNumber (ui a)
  /\ routeDetails (ui a') = routeDetails (ui a)
  /\ patterns (ui a') = patterns (ui a)
  /\ selectedPattern (ui a') = selectedPattern (ui a)
  /\ shapeData (ui a') = shapeData (ui a)
  /\ loading (ui a') = loading (ui a)
  /\ ((error (ui a') = nothing_selected_message /\ effects a' = effects a)
      \/ (exists e,
             error (ui a') = gpx_failure_message
             /\ effects a' = effects a ++ [ConsoleError e])
      \/ (exists filename content,
             error (ui a') = error (ui a)
             /\ effects a' = effects a ++ [Download filename content]
             /\ gpxData (selectedPattern (ui a)) (shapeData (ui a)) = Ok content
             /\ download_name (routeDetails (ui a)) (selectedPattern (ui a))
                = Ok filename)).
Proof.
  intros a'. unfold a'. cbn [step]. unfold downloadGPX.
  destruct (negb (truthy (selectedPattern (ui a)))
            || negb (truthy (shapeData (ui a)))
            || negb (truthy (routeDetails (ui a)))).
  { repeat split. now left. }
  destruct (gpxData (selectedPattern (ui a)) (shapeData (ui a)))
    as [content|e]; cbn [bind].
  - destruct (download_name (routeDetails (ui a)) (selectedPattern (ui a)))
      as [filename|e]; cbn [bind].
    + repeat split. right. right. now exists filename, content.
    + repeat split. right. left. now exists e.
  - repeat split. right. left. now exists e.
Qed.

Section Download_succeeds.
Context `{Runtime}.

(** X4: with line details present, a selected pattern whose headsign is a
    string and a loaded shape whose [geojson] feature has coordinates that
    are an array of arrays, [downloadGPX] downloads: one file is added, with
    a track point for every entry, and the state is left as it is.  The
    coordinates may be empty: the file then holds a track without points. *)
Theorem downloadGPX_downloads (net : network) (a : app) (headsign : jsstring)
  (geojson type : val) (entries : list val) :
  truthy (routeDetails (ui a)) = true ->
  prop (selectedPattern (ui a)) (js "headsign") = Ok (VStr headsign) ->
  prop (shapeData (ui a)) (js "geojson") = Ok geojson ->
  feature_of geojson type entries ->
  Forall is_array entries ->
  exists filename content,
    step net a DownloadClicked
    = {| ui := ui a; suspended := suspended a; requests := requests a;
         effects := effects a ++ [Download filename content] |}
    /\ download_name (routeDetails (ui a)) (selectedPattern (ui a)) = Ok filename
    /\ gpxData (selectedPattern (ui a)) (shapeData (ui a)) = Ok content
    /\ in_order (map download_point_text entries) content
    /\ shape_points (shapeData (ui a)) = entries.
Proof.
  intros Hdetails Hheadsign Hgeojson (geometry & Hfeature & Eg & _ & Ec) Harrays.
  assert (truthy (selectedPattern (ui a)) = true) as Hselected.
  { destruct (selectedPattern (ui a)); simpl in Hheadsign; try discriminate;
      reflexivity. }
  assert (truthy (shapeData (ui a)) = true) as Hshape.
  { destruct (shapeData (ui a)); simpl in Hgeojson; try discriminate;
      try reflexivity; injection Hgeojson as <-; discriminate. }
  destruct (prop_present _ (js "short_name") (truthy_not_nullish _ Hdetails))
    as (short_name & Eshort).
  assert (exists content,
             gpxData (selectedPattern (ui a)) (shapeData (ui a)) = Ok content)
    as (content & Econtent).
  { unfold gpxData. rewrite Hheadsign, Hgeojson. cbn [bind].
    rewrite Eg. cbn [bind]. rewrite Ec. cbn [bind array_map].
    rewrite (download_points_present Harrays). cbn [bind]. eauto. }
  assert (shape_points (shapeData (ui a)) = entries) as Epoints.
  { unfold shape_points. rewrite Hgeojson. cbn [bind]. rewrite Eg. cbn [bind].
    now rewrite Ec. }
  eexists _, content. split; [|split; [|split; [exact Econtent|split]]].
  - cbn [step]. unfold downloadGPX.
    rewrite Hselected, Hshape, Hdetails, Econtent. cbn [negb orb bind].
    unfold download_name. rewrite Eshort, Hheadsign. cbn [bind]. reflexivity.
  - unfold download_name. rewrite Eshort, Hheadsign. reflexivity.
  - rewrite <- Epoints. exact (gpxData_in_order _ _ Econtent).
  - exact Epoints.
Qed.

End Download_succeeds.

(** The hypothesis of X2 holds of line 1001 and its first pattern, whose
    headsign has two blanks. *)
Lemma download_name_has_no_blank_witness :
  download_name (json (sample_network (lines_url (js "1001"))))
    (enriched pattern_X)
  = Ok (js "rota-1001-Cacilhas---Lisboa.gpx")
  /\ Forall (fun u => is_whitespace u = false)
       (replace_whitespace (js "Cacilhas - Lisboa")).
Proof.
  split; [reflexivity|].
  destruct (@download_name_has_no_blank printed_numbers
              (json (sample_network (lines_url (js "1001"))))
              (enriched pattern_X) (js "rota-1001-Cacilhas---Lisboa.gpx")
              eq_refl)
    as (short_name & headsign & _ & Eh & _ & Hno & _).
  vm_compute in Eh. injection Eh as <-. exact Hno.
Defined.

(** The hypotheses of X4 hold once the first pattern of line 1001 and its
    shape are loaded. *)
Lemma downloadGPX_downloads_witness :
  truthy (routeDetails (ui sample_loaded)) = true
  /\ selectedPattern (ui sample_loaded) = enriched pattern_X
  /\ shapeData (ui sample_loaded) = shape_X
  /\ exists filename content,
       effects (step sample_network sample_loaded DownloadClicked)
       = [Download filename content].
Proof.
  split; [reflexivity|]. split; [reflexivity|]. split; [reflexivity|].
  destruct (@downloadGPX_downloads printed_numbers sample_network sample_loaded
              (js "Cacilhas - Lisboa") (feature sample_line [])
              (str "LineString")
              [pair_of "-9.14" "38.7"; pair_of "-9.1" "38.75"]
              eq_refl eq_refl eq_refl sample_feature_of sample_pairs_are_arrays)
    as (filename & content & Estep & _).
  exists filename, content. rewrite Estep. reflexivity.
Defined.

(** ** What the render computes *)

Lemma split_without_delimiter (headsign : jsstring) :
  ~ occurs delimiter headsign -> split delimiter headsign = [headsign].
Proof.
  intros Hfree. rewrite split_delimiter.
  pose proof (join_split_scan delimiter_not_nil headsign []) as J.
  cbn [List.app] in J.
  destruct (split_scan delimiter 0 [] headsign) as [|first [|second rest]] eqn:E.
  - now apply split_scan_not_nil in E.
  - simpl in J. now rewrite J.
  - exfalso. apply Hfree. rewrite <- J. apply join_occurs.
Qed.

(** X5: the text of a pattern's button is the first and the last token of
    the headsign with the delimiter between them, so it is the headsign
    itself when the headsign has two tokens, it drops the tokens in between
    when there are more, and it shows a headsign without the delimiter
    twice.  A pattern whose headsign is no string makes the render throw. *)
Theorem pattern_label_of_headsign `{Runtime} (pattern : val) :
  (forall tokens,
      tokens <> [] -> Forall plain_token tokens ->
      prop pattern (js "headsign") = Ok (VStr (join delimiter tokens)) ->
      pattern_label pattern = Ok (hd [] tokens ++ js " - " ++ last tokens []))
  /\ (forall first second,
         plain_token first -> plain_token second ->
         prop pattern (js "headsign") = Ok (VStr (first ++ js " - " ++ second)) ->
         pattern_label pattern = Ok (first ++ js " - " ++ second))
  /\ (forall headsign,
         ~ occurs delimiter headsign ->
         prop pattern (js "headsign") = Ok (VStr headsign) ->
         pattern_label pattern = Ok (headsign ++ js " - " ++ headsign))
  /\ (forall headsign,
         prop pattern (js "headsign") = Ok headsign ->
         (forall s, headsign <> VStr s) ->
         pattern_label pattern = Throw TypeError)
  /\ (nullish pattern = true -> pattern_label pattern = Throw TypeError).
Proof.
  assert (forall tokens,
             tokens <> [] -> Forall plain_token tokens ->
             prop pattern (js "headsign") = Ok (VStr (join delimiter tokens)) ->
             pattern_label pattern
             = Ok (hd [] tokens ++ js " - " ++ last tokens [])) as Htokens.
  { intros tokens Hne Hplain E. unfold pattern_label, getRouteEndpoints.
    rewrite E. cbn [bind origin destination].
    now rewrite (split_join_tokens Hne Hplain). }
  split; [exact Htokens|]. split; [|split; [|split]].
  - intros first second Hfirst Hsecond E.
    apply (Htokens [first; second]); [discriminate| |exact E].
    constructor; [exact Hfirst|]. constructor; [exact Hsecond | constructor].
  - intros headsign Hfree E. unfold pattern_label, getRouteEndpoints.
    rewrite E. cbn [bind origin destination].
    now rewrite (split_without_delimiter Hfree).
  - intros headsign E Hother. unfold pattern_label. rewrite E. cbn [bind].
    destruct headsign; try reflexivity. now destruct (Hother s).
  - intros Hnull. unfold pattern_label. now destruct pattern.
Qed.

Section Markers.
Context `{Runtime}.

Lemma object_of_member (v member : val) (name : jsstring) :
  prop v name = Ok member -> nullish member = false -> truthy v = true.
Proof.
  destruct v; simpl; try discriminate; try reflexivity;
    intros [= <-]; discriminate.
Qed.

(** X6: with line details present and a selected pattern whose headsign is a
    string, a loaded shape whose [geojson] feature has coordinates gets two
    markers: one at the first entry, with the origin in its popup, and one
    at the last entry, with the destination; each position gives the
    entry's second member as latitude and its first as longitude.  When the
    coordinates are empty the render throws, although [downloadGPX] accepts
    the same shape. *)
Theorem markers_at_the_ends (st : state) (headsign : jsstring)
  (geojson type : val) (entries : list val) :
  truthy (routeDetails st) = true ->
  prop (selectedPattern st) (js "headsign") = Ok (VStr headsign) ->
  prop (shapeData st) (js "geojson") = Ok geojson ->
  feature_of geojson type entries ->
  Forall is_array entries ->
  match entries with
  | [] => markers st = Throw TypeError
  | entry :: _ =>
      markers st
      = Ok [ {| latitude := lat_of entry; longitude := lon_of entry;
                popup := js "In" ++ [237%N] ++ js "cio: "
                         ++ origin (getRouteEndpoints headsign) |};
             {| latitude := lat_of (last entries VUndefined);
                longitude := lon_of (last entries VUndefined);
                popup := js "Fim: "
                         ++ destination (getRouteEndpoints headsign) |} ]
  end.
Proof.
  intros Hdetails Hheadsign Hgeojson (geometry & Hfeature & Eg & Et & Ec) Harrays.
  assert (truthy (shapeData st) = true) as Hshape.
  { exact (object_of_member _ _ Hgeojson Hfeature). }
  assert (truthy geojson = true) as Hg.
  { apply (object_of_member _ _ Eg).
    destruct geometry; simpl in Et; try discriminate; reflexivity. }
  assert (popup_endpoints (selectedPattern st) = Ok (getRouteEndpoints headsign))
    as Epopup.
  { unfold popup_endpoints.
    assert (nullish (selectedPattern st) = false) as ->
      by (destruct (selectedPattern st); simpl in Hheadsign; try discriminate;
          reflexivity).
    rewrite Hheadsign. cbn [bind truthy].
    destruct headsign; reflexivity. }
  unfold markers. rewrite Hdetails, Hshape, Hgeojson. cbn [negb bind].
  rewrite Hg, Eg. cbn [negb bind]. rewrite Ec. cbn [bind item].
  destruct entries as [|entry entries]; [reflexivity|].
  cbn [nth]. inversion Harrays as [|? ? [items Eentry] Hrest]; subst.
  cbn [item bind]. rewrite Epopup. cbn [bind last_item].
  assert (is_array (last (VArr items :: entries) VUndefined))
    as [items' Elast].
  { rewrite Forall_forall in Harrays. apply Harrays. apply last_in. discriminate. }
  rewrite Elast. reflexivity.
Qed.

End Markers.

(** The hypotheses of X6 hold once the first pattern of line 1001 and its
    shape are loaded: the markers stand at the two ends of the shape. *)
Lemma markers_at_the_ends_witness :
  truthy (routeDetails (ui sample_loaded)) = true
  /\ markers (ui sample_loaded)
     = Ok [ {| latitude := num "38.7"; longitude := num "-9.14";
               popup := js "In" ++ [237%N] ++ js "cio: Cacilhas" |};
            {| latitude := num "38.75"; longitude := num "-9.1";
               popup := js "Fim: Lisboa" |} ].
Proof.
  split; [reflexivity|].
  exact (@markers_at_the_ends printed_numbers (ui sample_loaded)
           (js "Cacilhas - Lisboa") (feature sample_line [])
           (str "LineString")
           [pair_of "-9.14" "38.7"; pair_of "-9.1" "38.75"]
           eq_refl eq_refl eq_refl sample_feature_of sample_pairs_are_arrays).
Defined.

(** ** More on the pattern fan-out *)

Section Merge.
Context `{Runtime}.

Lemma str_eqb_other (a b : jsstring) : a <> b -> str_eqb a b = false.
Proof.
  intros Hne. destruct (str_eqb a b) eqn:E; [|reflexivity].
  apply str_eqb_eq in E. congruence.
Qed.

Lemma lookup_assign_same (key : jsstring) (v : val)
  (members : list (jsstring * val)) :
  lookup key (assign key v members) = v.
Proof.
  induction members as [|[k old] members IH]; simpl.
  - now rewrite str_eqb_refl.
  - destruct (str_eqb k key) eqn:E; simpl; rewrite E; [reflexivity | exact IH].
Qed.

Lemma lookup_assign_other (key other : jsstring) (v : val)
  (members : list (jsstring * val)) :
  other <> key ->
  lookup other (assign key v members) = lookup other members.
Proof.
  intros Hne. induction members as [|[k old] members IH]; simpl.
  - rewrite str_eqb_other by congruence. reflexivity.
  - destruct (str_eqb k key) eqn:E; simpl.
    + apply str_eqb_eq in E. subst k.
      rewrite str_eqb_other by congruence. reflexivity.
    + destruct (str_eqb k other); [reflexivity | exact IH].
Qed.

(** X7: a pattern that the fan-out resolves is the pattern's document with
    the long name of its route written to both [route_long_name] and
    [long_name], in place of any such member of the document; every other
    member, the headsign and the shape identifier among them, is the
    document's own. *)
Theorem resolve_pattern_merges (net : network) (patternId pattern : val) :
  resolve_pattern net patternId = Ok pattern ->
  exists route_id name,
    ok (net (patterns_url patternId)) = true
    /\ prop (json (net (patterns_url patternId))) (js "route_id") = Ok route_id
    /\ ok (net (routes_url route_id)) = true
    /\ prop (json (net (routes_url route_id))) (js "long_name") = Ok name
    /\ prop pattern (js "route_long_name") = Ok name
    /\ prop pattern (js "long_name") = Ok name
    /\ (forall key,
           key <> js "long_name" -> key <> js "route_long_name" ->
           prop pattern key
           = Ok (lookup key (spread (json (net (patterns_url patternId))))))
    /\ (forall key members,
           key <> js "long_name" -> key <> js "route_long_name" ->
           json (net (patterns_url patternId)) = VObj members ->
           prop pattern key = prop (json (net (patterns_url patternId))) key).
Proof.
  unfold resolve_pattern. intros E.
  destruct (ok (net (patterns_url patternId))) eqn:Hok; [|discriminate].
  cbn [negb] in E. bind_inversion E. rename x into route_id.
  destruct (ok (net (routes_url route_id))) eqn:Hrok; [|discriminate].
  cbn [negb] in E. unfold enrich in E. bind_inversion E. bind_inversion E.
  injection E as <-. rewrite Ex0 in Ex1. injection Ex1 as <-.
  exists route_id, x. split; [reflexivity|]. split; [exact Ex|].
  split; [exact Hrok|]. split; [exact Ex0|].
  assert (forall key,
             key <> js "long_name" -> key <> js "route_long_name" ->
             prop (VObj (assign (js "long_name") x
                           (assign (js "route_long_name") x
                              (spread (json (net (patterns_url patternId)))))))
               key
             = Ok (lookup key (spread (json (net (patterns_url patternId))))))
    as Hother.
  { intros key H1 H2. cbn [prop].
    now rewrite !lookup_assign_other by assumption. }
  split; [|split; [|split]].
  - cbn [prop]. rewrite lookup_assign_other by discriminate.
    now rewrite lookup_assign_same.
  - cbn [prop]. now rewrite lookup_assign_same.
  - exact Hother.
  - intros key members H1 H2 Eobj. rewrite (Hother key H1 H2), Eobj. reflexivity.
Qed.

End Merge.

Section Refusals.
Context `{Runtime}.
Variable net : network.

Lemma pool_run_app (p : pool) (before after : list nat) :
  pool_run net p (before ++ after)
  = pool_run net (pool_run net p before) after.
Proof. unfold pool_run. apply fold_left_app. Qed.

Lemma pool_step_rejects (p : pool) (i : nat) (t : task) (e : exn)
  (sent : list jsstring) :
  joined p = None ->
  nth_error (tasks p) i = Some t ->
  is_settled t = false ->
  advance net t = (Settled (Throw e), sent) ->
  joined (fst (pool_step net p i)) = Some (Throw e).
Proof.
  intros Ej Et Hs Ea. unfold pool_step. rewrite Et, Hs, Ea.
  cbn [fst joined]. now rewrite Ej.
Qed.

(** X8: the first refusal to arrive decides the outcome.  While the fan-out
    is not settled, the arrival of a refused response for a task that awaits
    its pattern or its route rejects the whole fan-out at once, with the
    error that names that pattern or route, and nothing that arrives
    afterwards changes it. *)
Theorem first_refusal_decides (p : pool) (before after : list nat) (i : nat) :
  joined (pool_run net p before) = None ->
  (forall patternId,
      nth_error (tasks (pool_run net p before)) i = Some (PatternFetch patternId) ->
      ok (net (patterns_url patternId)) = false ->
      joined (pool_run net p (before ++ i :: after))
      = Some (Throw (Error (pattern_error_message patternId))))
  /\ (forall patternData url route_id,
         nth_error (tasks (pool_run net p before)) i
         = Some (RouteFetch patternData url) ->
         prop patternData (js "route_id") = Ok route_id ->
         ok (net url) = false ->
         joined (pool_run net p (before ++ i :: after))
         = Some (Throw (Error (route_error_message route_id))))
  /\ (forall outcome extra,
         joined (pool_run net p (before ++ i :: after)) = Some outcome ->
         joined (pool_run net p ((before ++ i :: after) ++ extra)) = Some outcome).
Proof.
  intros Ej. split; [|split].
  - intros patternId Et Hok. rewrite pool_run_app.
    cbn [pool_run fold_left].
    fold (pool_run net (fst (pool_step net (pool_run net p before) i)) after).
    apply (@pool_run_joined _ net).
    apply (@pool_step_rejects _ i (PatternFetch patternId) _ [] Ej Et eq_refl).
    cbn [advance]. now rewrite Hok.
  - intros patternData url route_id Et Erid Hok. rewrite pool_run_app.
    cbn [pool_run fold_left].
    fold (pool_run net (fst (pool_step net (pool_run net p before) i)) after).
    apply (@pool_run_joined _ net).
    apply (@pool_step_rejects _ i (RouteFetch patternData url) _ [] Ej Et eq_refl).
    cbn [advance]. now rewrite Hok, Erid.
  - intros outcome extra E. rewrite pool_run_app. now apply (@pool_run_joined _ net).
Qed.

(** *** How many requests a search sends *)

Lemma advance_budget (t : task) :
  List.length (snd (advance net t)) + owes_route (fst (advance net t))
  <= owes_route t
  /\ Forall (fun url => exists route_id, url = routes_url route_id)
       (snd (advance net t)).
Proof.
  destruct t as [patternId | patternResponse | patternData url
                 | patternData routeResponse | outcome]; cbn [advance].
  - destruct (negb (ok (net (patterns_url patternId)))); simpl; split;
      (lia || constructor).
  - destruct (prop (json patternResponse) (js "route_id")) as [route_id|e];
      simpl; split; try lia; repeat constructor. now exists route_id.
  - destruct (negb (ok (net url)));
      [destruct (prop patternData (js "route_id"))|]; simpl; split;
      (lia || constructor).
  - simpl. split; [lia | constructor].
  - simpl. split; [lia | constructor].
Qed.

Lemma owed_replace_nth (ts : list task) (i : nat) (t t' : task) :
  nth_error ts i = Some t ->
  owed (replace_nth i t' ts) + owes_route t = owed ts + owes_route t'.
Proof.
  unfold owed. revert i; induction ts as [|x ts IH]; intros [|i]; simpl;
    try discriminate.
  - intros [= ->]. lia.
  - intros E. specialize (IH i E). lia.
Qed.

Lemma pool_step_budget (p : pool) (i : nat) :
  List.length (snd (pool_step net p i)) + owed (tasks (fst (pool_step net p i)))
  <= owed (tasks p)
  /\ Forall (fun url => exists route_id, url = routes_url route_id)
       (snd (pool_step net p i)).
Proof.
  unfold pool_step.
  destruct (nth_error (tasks p) i) as [t|] eqn:Et;
    [|simpl; split; [lia | constructor]].
  destruct (is_settled t); [simpl; split; [lia | constructor]|].
  pose proof (advance_budget t) as [Hb Hr].
  destruct (advance net t) as [t' sent]. cbn [fst snd tasks] in *.
  split; [|exact Hr].
  pose proof (@owed_replace_nth (tasks p) i t t' Et). lia.
Qed.

Lemma resume_fan_out_requests (a : app) (p : pool) (i : nat) :
  suspended a = [SearchPatterns p] ->
  requests (step net a (Resumed 0 i))
  = requests a ++ snd (pool_step net p i).
Proof.
  intros Es. cbn [step]. rewrite Es. cbn [nth_error].
  unfold resume_search_patterns. now destruct (pool_step net p i).
Qed.

Lemma run_fan_out_requests (schedule : list nat) :
  forall a p,
    suspended a = [SearchPatterns p] ->
    exists routes,
      requests (run net a (map (Resumed 0) schedule)) = requests a ++ routes
      /\ List.length routes + owed (tasks (pool_run net p schedule))
         <= owed (tasks p)
      /\ Forall (fun url => exists route_id, url = routes_url route_id) routes.
Proof.
  induction schedule as [|i schedule IH]; intros a p Es.
  - exists []. cbn. rewrite app_nil_r. repeat split; [lia | constructor].
  - destruct (@resume_fan_out _ net a p i Es) as [Es' _].
    pose proof (resume_fan_out_requests a i Es) as Er.
    pose proof (pool_step_budget p i) as [Hb Hroutes].
    destruct (IH _ _ Es') as (routes & Erun & Hlen & Hall).
    exists (snd (pool_step net p i) ++ routes).
    cbn [map run fold_left pool_run]. unfold run in Erun.
    rewrite Erun, Er, <- app_assoc. split; [reflexivity|]. split.
    + rewrite length_app.
      fold (pool_run net (fst (pool_step net p i)) schedule). lia.
    + apply Forall_app. now split.
Qed.

Lemma owed_start (patternIds : list val) :
  owed (tasks (fst (start_pool patternIds))) = List.length patternIds.
Proof.
  unfold owed. cbn [start_pool fst tasks]. rewrite map_map. cbn [owes_route].
  induction patternIds as [|id ids IH]; simpl; [reflexivity | now rewrite IH].
Qed.

(** X9: a search sends the request for the line, then, when the line's
    document arrives, the requests for all its patterns in the order of the
    list and before any of their responses, and after that at most one
    route request for each pattern: never more than one plus twice the
    number of patterns, whatever the order of arrival and whatever fails.
    No request is repeated for a retry. *)
Theorem search_sends_each_request_once (text : jsstring) (patternIds : list val)
  (schedule : list nat) :
  trim text <> [] ->
  ok (net (lines_url text)) = true ->
  prop (json (net (lines_url text))) (js "patterns") = Ok (VArr patternIds) ->
  exists routes,
    requests (run net initial_app (search_events text schedule))
    = lines_url text :: map patterns_url patternIds ++ routes
    /\ List.length routes <= List.length patternIds
    /\ Forall (fun url => exists route_id, url = routes_url route_id) routes
    /\ List.length (requests (run net initial_app (search_events text schedule)))
       <= 1 + 2 * List.length patternIds.
Proof.
  intros Htext Hok Hpatterns.
  assert (exists routes,
             requests (run net initial_app (search_events text schedule))
             = lines_url text :: map patterns_url patternIds ++ routes
             /\ List.length routes <= List.length patternIds
             /\ Forall (fun url => exists route_id, url = routes_url route_id)
                  routes) as (routes & E & Hlen & Hall).
  { unfold search_events, run. rewrite fold_left_app. cbn [fold_left].
    change (step net initial_app (Typed text))
      with (with_ui (setRouteNumber text initial_state) initial_app).
    change (step net (with_ui (setRouteNumber text initial_state) initial_app)
              SearchClicked)
      with (searchRoute (with_ui (setRouteNumber text initial_state) initial_app)).
    rewrite search_begins by exact Htext.
    cbn [ui with_ui suspended requests effects initial_app routeNumber
         setRouteNumber List.app].
    match goal with
    | |- context [step net (step net ?a (Resumed 0 0)) (Resumed 0 0)] =>
        rewrite (@resume_line_ok _ net a (lines_url text) 0 eq_refl Hok)
    end.
    match goal with
    | |- context [step net ?a (Resumed 0 0)] =>
        rewrite (@resume_json_patterns _ net a (net (lines_url text)) patternIds 0
                   eq_refl Hpatterns)
    end.
    cbn [ui suspended requests effects].
    destruct patternIds as [|first others].
    - exists []. match goal with
      | |- context [fold_left (step net) ?l ?a] =>
          change (fold_left (step net) l a) with (run net a l)
      end.
      rewrite (@idle_run _ net) by reflexivity. cbn. repeat split; [lia | constructor].
    - match goal with
      | |- context [fold_left (step net) ?l ?a] =>
          change (fold_left (step net) l a) with (run net a l);
          destruct (@run_fan_out_requests schedule a
                      (fst (start_pool (first :: others))) eq_refl)
            as (routes & Erun & Hlen & Hall)
      end.
      exists routes. rewrite Erun. cbn [requests List.app].
      split; [reflexivity|]. split; [|exact Hall].
      rewrite owed_start in Hlen. lia. }
  exists routes. split; [exact E|]. split; [exact Hlen|]. split; [exact Hall|].
  rewrite E. cbn [List.length]. rewrite length_app, length_map. lia.
Qed.

End Refusals.

(** The hypothesis of X7 holds of the first pattern of line 1001, which
    keeps its headsign. *)
Lemma resolve_pattern_merges_witness :
  resolve_pattern sample_network (str "p1") = Ok (enriched pattern_X)
  /\ prop (enriched pattern_X) (js "headsign")
     = prop pattern_X (js "headsign").
Proof.
  split; [reflexivity|].
  destruct (@resolve_pattern_merges printed_numbers sample_network (str "p1")
              (enriched pattern_X) eq_refl)
    as (route_id & name & _ & _ & _ & _ & _ & _ & _ & Hkeep).
  refine (Hkeep (js "headsign") _ _ _ eq_refl); discriminate.
Defined.

(** The hypothesis of X8 holds after the first response for p1: the refusal
    of the unknown pattern p9 then rejects the fan-out. *)
Lemma first_refusal_decides_witness :
  joined (pool_run sample_network (fst (start_pool [str "p1"; str "p9"])) [0])
  = None
  /\ joined (pool_run sample_network (fst (start_pool [str "p1"; str "p9"]))
               ([0] ++ 1 :: [0; 0; 0]))
     = Some (Throw (Error (pattern_error_message (str "p9")))).
Proof.
  split; [reflexivity|].
  exact (proj1 (@first_refusal_decides printed_numbers sample_network
                  (fst (start_pool [str "p1"; str "p9"])) [0] [0; 0; 0] 1
                  eq_refl)
           (str "p9") eq_refl eq_refl).
Defined.

(** The hypotheses of X9 hold of the search for line 1001, which has two
    patterns. *)
Lemma search_sends_each_request_once_witness :
  trim (js "1001") <> []
  /\ List.length (requests (run sample_network initial_app sample_search))
     <= 1 + 2 * 2.
Proof.
  assert (trim (js "1001") <> []) as Htext by (vm_compute; discriminate).
  split; [exact Htext|].
  destruct (@search_sends_each_request_once printed_numbers sample_network
              (js "1001") [str "p1"; str "p2"] [0; 1; 0; 1; 0; 1; 0; 1]
              Htext eq_refl eq_refl)
    as (routes & _ & _ & _ & Hle).
  exact Hle.
Defined.

(** ** The handlers from click to settlement *)

Section Search_flows.
Context `{Runtime}.
Variable net : network.

Lemma run_app (a : app) (before after : list event) :
  run net a (before ++ after) = run net (run net a before) after.
Proof. unfold run. apply fold_left_app. Qed.

Lemma search_reaches_line (a : app) (text : jsstring) :
  suspended a = [] -> trim text <> [] ->
  run net a [Typed text; SearchClicked]
  = {| ui := {| routeNumber := text; routeDetails := VNull; patterns := [];
                selectedPattern := VNull; shapeData := VNull; loading := true;
                error := [] |};
       suspended := [SearchLine (lines_url text)];
       requests := requests a ++ [lines_url text];
       effects := effects a |}.
Proof.
  intros Es Htext. unfold run. cbn [fold_left].
  change (step net a (Typed text)) with (with_ui (setRouteNumber text (ui a)) a).
  change (step net (with_ui (setRouteNumber text (ui a)) a) SearchClicked)
    with (searchRoute (with_ui (setRouteNumber text (ui a)) a)).
  rewrite search_begins by exact Htext.
  cbn [ui with_ui suspended requests effects routeNumber setRouteNumber].
  rewrite Es. reflexivity.
Qed.

Lemma search_events_split (text : jsstring) (schedule : list nat) :
  search_events text schedule
  = [Typed text; SearchClicked]
    ++ [Resumed 0 0; Resumed 0 0] ++ map (Resumed 0) schedule.
Proof. reflexivity. Qed.

Lemma prop_throws (v : val) (name : jsstring) (e : exn) :
  prop v name = Throw e -> e = TypeError.
Proof. destruct v; simpl; congruence. Qed.

Lemma array_map_throws (v : val) :
  (forall items, v <> VArr items) ->
  array_map v (fun id : val => Ok id) = Throw TypeError.
Proof. intros Hv. destruct v; try reflexivity. now destruct (Hv items). Qed.

(** X10: a search that gets no list of patterns.  From an idle component, a
    search whose line request is refused ends with the route-not-found
    message, the results of any earlier search cleared and the loading flag
    down; one whose line document has no array of patterns keeps the
    document as the line's details and ends with the engine's type-error
    message.  Either way the line request is the only one sent, and nothing
    stays suspended. *)
Theorem search_without_patterns (a : app) (text : jsstring)
  (schedule : list nat) :
  suspended a = [] ->
  trim text <> [] ->
  (ok (net (lines_url text)) = false ->
   run net a (search_events text schedule)
   = {| ui := {| routeNumber := text; routeDetails := VNull; patterns := [];
                 selectedPattern := VNull; shapeData := VNull;
                 loading := false; error := route_not_found_message |};
        suspended := [];
        requests := requests a ++ [lines_url text];
        effects := effects a |})
  /\ (ok (net (lines_url text)) = true ->
      (forall patternIds,
          prop (json (net (lines_url text))) (js "patterns")
          <> Ok (VArr patternIds)) ->
      run net a (search_events text schedule)
      = {| ui := {| routeNumber := text;
                    routeDetails := json (net (lines_url text));
                    patterns := []; selectedPattern := VNull;
                    shapeData := VNull; loading := false;
                    error := type_error_message |};
           suspended := [];
           requests := requests a ++ [lines_url text];
           effects := effects a |}).
Proof.
  intros Es Htext. split.
  - intros Hok. rewrite search_events_split, run_app, run_app.
    rewrite (@search_reaches_line a text Es Htext).
    unfold run at 2. cbn [fold_left].
    match goal with
    | |- context [step net (step net ?b (Resumed 0 0)) (Resumed 0 0)] =>
        assert (step net b (Resumed 0 0)
                = {| ui := {| routeNumber := text; routeDetails := VNull;
                              patterns := []; selectedPattern := VNull;
                              shapeData := VNull; loading := false;
                              error := route_not_found_message |};
                     suspended := [];
                     requests := requests a ++ [lines_url text];
                     effects := effects a |}) as ->
    end.
    { cbn [step suspended nth_error]. unfold resume_search_line.
      rewrite Hok. reflexivity. }
    cbn [step suspended nth_error]. now apply (@idle_run _ net).
  - intros Hok Hpatterns. rewrite search_events_split, run_app, run_app.
    rewrite (@search_reaches_line a text Es Htext).
    unfold run at 2. cbn [fold_left].
    match goal with
    | |- context [step net (step net ?b (Resumed 0 0)) (Resumed 0 0)] =>
        rewrite (@resume_line_ok _ net b (lines_url text) 0 eq_refl Hok)
    end.
    cbn [ui suspended requests effects].
    match goal with
    | |- run net (step net ?b (Resumed 0 0)) _ = ?target =>
        assert (step net b (Resumed 0 0) = target) as ->
    end.
    { cbn [step suspended nth_error]. unfold resume_search_json.
      destruct (prop (json (net (lines_url text))) (js "patterns"))
        as [ids|e] eqn:E.
      - cbn [bind]. rewrite array_map_throws; [reflexivity|].
        intros items ->. now apply (Hpatterns items).
      - cbn [bind]. rewrite (prop_throws _ _ E). reflexivity. }
    now apply (@idle_run _ net).
Qed.

(** X11: what the component shows of a search whose line document lists its
    patterns, at any moment of the fan-out and whatever the order of
    arrival.  The details of the line are shown as soon as its document has
    arrived and stay, also when the fan-out is rejected; the loading flag is
    up exactly as long as the fan-out is not settled; the patterns are shown
    only once it is fulfilled, and the error is the message of its
    rejection.  The selection and the shape of an earlier search are
    cleared. *)
Theorem search_outcome (a : app) (text : jsstring) (patternIds : list val)
  (schedule : list nat) :
  suspended a = [] ->
  trim text <> [] ->
  ok (net (lines_url text)) = true ->
  prop (json (net (lines_url text))) (js "patterns") = Ok (VArr patternIds) ->
  let shown found busy message :=
    {| routeNumber := text; routeDetails := json (net (lines_url text));
       patterns := found; selectedPattern := VNull; shapeData := VNull;
       loading := busy; error := message |} in
  ui (run net a (search_events text schedule))
  = match joined (pool_run net (fst (start_pool patternIds)) schedule) with
    | None => shown [] true []
    | Some (Ok patternsData) => shown patternsData false []
    | Some (Throw e) => shown [] false (exn_message e)
    end.
Proof.
  intros Es Htext Hok Hpatterns shown.
  rewrite search_events_split, run_app, run_app.
  rewrite (@search_reaches_line a text Es Htext).
  unfold run at 2. cbn [fold_left].
  match goal with
  | |- context [step net (step net ?b (Resumed 0 0)) (Resumed 0 0)] =>
      rewrite (@resume_line_ok _ net b (lines_url text) 0 eq_refl Hok)
  end.
  match goal with
  | |- context [step net ?b (Resumed 0 0)] =>
      rewrite (@resume_json_patterns _ net b (net (lines_url text)) patternIds 0
                 eq_refl Hpatterns)
  end.
  cbn [ui suspended requests effects].
  destruct patternIds as [|first others].
  - rewrite (@idle_run _ net) by reflexivity.
    rewrite (@pool_run_joined _ net schedule (Ok [])) by reflexivity.
    reflexivity.
  - match goal with
    | |- ui (run net ?b _) = _ =>
        destruct (@run_fan_out _ net schedule b
                    (fst (start_pool (first :: others))) eq_refl eq_refl)
          as [_ Eui]
    end.
    rewrite Eui.
    destruct (joined (pool_run net (fst (start_pool (first :: others))) schedule))
      as [[patternsData|e]|]; reflexivity.
Qed.

Lemma nth_error_end {A : Type} (l : list A) (x : A) :
  nth_error (l ++ [x]) (List.length l) = Some x.
Proof. induction l as [|y l IH]; [reflexivity | exact IH]. Qed.

Lemma remove_nth_end {A : Type} (l : list A) (x : A) :
  remove_nth (List.length l) (l ++ [x]) = l.
Proof. induction l as [|y l IH]; [reflexivity | simpl; now rewrite IH]. Qed.

Lemma replace_nth_end {A : Type} (l : list A) (x y : A) :
  replace_nth (List.length l) y (l ++ [x]) = l ++ [y].
Proof. induction l as [|z l IH]; [reflexivity | simpl; now rewrite IH]. Qed.

(** X12: a click on a pattern, to the end of its handler and whatever else
    is suspended meanwhile.  The pattern is selected at once and one request
    for its shape is sent.  When the request is refused the shape error is
    set and the shape that was loaded before stays, next to the new
    selection; when it is answered the document becomes the loaded shape and
    the error that was shown before stays.  A pattern that is [null] or
    [undefined] is selected, sends nothing and sets the engine's type-error
    message.  The line, its patterns and the loading flag are never
    touched. *)
Theorem fetchPattern_outcomes (a : app) (pattern : val) :
  let k := List.length (suspended a) in
  let shown shape message :=
    {| routeNumber := routeNumber (ui a); routeDetails := routeDetails (ui a);
       patterns := patterns (ui a); selectedPattern := pattern;
       shapeData := shape; loading := loading (ui a); error := message |} in
  match prop pattern (js "shape_id") with
  | Throw _ =>
      nullish pattern = true
      /\ step net a (PatternClicked pattern)
         = {| ui := shown (shapeData (ui a)) type_error_message;
              suspended := suspended a; requests := requests a;
              effects := effects a |}
  | Ok shape_id =>
      step net a (PatternClicked pattern)
      = {| ui := shown (shapeData (ui a)) (error (ui a));
           suspended := suspended a ++ [ShapeFetch (shapes_url shape_id)];
           requests := requests a ++ [shapes_url shape_id];
           effects := effects a |}
      /\ (ok (net (shapes_url shape_id)) = false ->
          run net a [PatternClicked pattern; Resumed k 0]
          = {| ui := shown (shapeData (ui a)) shape_error_message;
               suspended := suspended a;
               requests := requests a ++ [shapes_url shape_id];
               effects := effects a |})
      /\ (ok (net (shapes_url shape_id)) = true ->
          run net a [PatternClicked pattern; Resumed k 0; Resumed k 0]
          = {| ui := shown (json (net (shapes_url shape_id))) (error (ui a));
               suspended := suspended a;
               requests := requests a ++ [shapes_url shape_id];
               effects := effects a |})
  end.
Proof.
  intros k shown.
  destruct (prop pattern (js "shape_id")) as [shape_id|e] eqn:E.
  - assert (step net a (PatternClicked pattern)
            = {| ui := shown (shapeData (ui a)) (error (ui a));
                 suspended := suspended a ++ [ShapeFetch (shapes_url shape_id)];
                 requests := requests a ++ [shapes_url shape_id];
                 effects := effects a |}) as Eclick.
    { cbn [step]. unfold fetchPattern. rewrite E. reflexivity. }
    split; [exact Eclick|]. split.
    + intros Hok. unfold run. cbn [fold_left]. rewrite Eclick.
      cbn [step suspended]. unfold k. rewrite nth_error_end.
      unfold resume_shape_fetch. rewrite Hok.
      cbn [negb suspended ui requests effects]. rewrite remove_nth_end.
      reflexivity.
    + intros Hok. unfold run. cbn [fold_left]. rewrite Eclick.
      cbn [step suspended]. unfold k. rewrite nth_error_end.
      unfold resume_shape_fetch. rewrite Hok.
      cbn [negb suspended ui requests effects]. rewrite replace_nth_end.
      rewrite nth_error_end. unfold resume_shape_json.
      cbn [suspended ui requests effects]. rewrite remove_nth_end.
      reflexivity.
  - split; [destruct pattern; simpl in E; (discriminate || reflexivity)|].
    cbn [step]. unfold fetchPattern. rewrite E, (prop_throws _ _ E).
    reflexivity.
Qed.

End Search_flows.

Section Exporter_type_errors.
Context `{Runtime}.

Lemma typed_is_truthy (geojson : val) (type : jsstring) :
  prop geojson (js "type") = Ok (VStr type) -> truthy geojson = true.
Proof. destruct geojson; simpl; congruence. Qed.

(** X13: [geojsonToGpx] throws more than its own two errors.  A feature
    collection without a [features] member, one whose first feature has no
    geometry, and one whose first geometry has no coordinates make it throw
    the engine's [TypeError]; only the first feature is guarded by the
    optional chain. *)
Theorem geojsonToGpx_type_errors (geojson : val) (origin destination : jsstring) :
  prop geojson (js "type") = Ok (VStr (js "FeatureCollection")) ->
  (forall features,
      prop geojson (js "features") = Ok features ->
      nullish features = true ->
      geojsonToGpx geojson origin destination = Throw TypeError)
  /\ (forall features first geometry,
         prop geojson (js "features") = Ok features ->
         item features 0 = Ok first ->
         nullish first = false ->
         prop first (js "geometry") = Ok geometry ->
         nullish geometry = true ->
         geojsonToGpx geojson origin destination = Throw TypeError)
  /\ (forall features first geometry coordinates,
         prop geojson (js "features") = Ok features ->
         item features 0 = Ok first ->
         nullish first = false ->
         prop first (js "geometry") = Ok geometry ->
         prop geometry (js "coordinates") = Ok coordinates ->
         nullish coordinates = true ->
         geojsonToGpx geojson origin destination = Throw TypeError).
Proof.
  intros Etype.
  assert (forall e,
             first_coordinates geojson = Throw e ->
             geojsonToGpx geojson origin destination = Throw e) as Hchain.
  { intros e E. unfold geojsonToGpx.
    rewrite (typed_is_truthy _ Etype), Etype. cbn [bind negb orb is_string].
    rewrite str_eqb_refl. cbn [negb]. unfold waypoints. rewrite E. reflexivity. }
  split; [|split].
  - intros features Ef Hn. apply Hchain. unfold first_coordinates.
    rewrite Ef. cbn [bind]. destruct features; try discriminate; reflexivity.
  - intros features first geometry Ef Efirst Hfirst Eg Hn. apply Hchain.
    unfold first_coordinates. rewrite Ef. cbn [bind]. rewrite Efirst.
    cbn [bind]. rewrite Hfirst, Eg. cbn [bind].
    destruct geometry; try discriminate; reflexivity.
  - intros features first geometry coordinates Ef Efirst Hfirst Eg Ec Hn.
    unfold geojsonToGpx.
    rewrite (typed_is_truthy _ Etype), Etype. cbn [bind negb orb is_string].
    rewrite str_eqb_refl. cbn [negb]. unfold waypoints, first_coordinates.
    rewrite Ef. cbn [bind]. rewrite Efirst. cbn [bind].
    rewrite Hfirst, Eg. cbn [bind]. rewrite Ec. cbn [bind].
    destruct coordinates; try discriminate; reflexivity.
Qed.

End Exporter_type_errors.

(** The hypotheses of X10 hold of a search for the unknown line 9999. *)
Lemma search_without_patterns_witness :
  suspended (@initial_app printed_numbers) = []
  /\ trim (js "9999") <> []
  /\ error (ui (run sample_network initial_app (search_events (js "9999") [0])))
     = route_not_found_message.
Proof.
  assert (trim (js "9999") <> []) as Htext by (vm_compute; discriminate).
  split; [reflexivity|]. split; [exact Htext|].
  rewrite (proj1 (@search_without_patterns printed_numbers sample_network
                    initial_app (js "9999") [0] eq_refl Htext) eq_refl).
  reflexivity.
Defined.

(** The hypotheses of X11 hold of the search for line 1001. *)
Lemma search_outcome_witness :
  trim (js "1001") <> []
  /\ ui (run sample_network initial_app sample_search)
     = {| routeNumber := js "1001";
          routeDetails := json (sample_network (lines_url (js "1001")));
          patterns := [enriched pattern_X; enriched pattern_Y];
          selectedPattern := VNull; shapeData := VNull; loading := false;
          error := [] |}.
Proof.
  assert (trim (js "1001") <> []) as Htext by (vm_compute; discriminate).
  split; [exact Htext|].
  exact (@search_outcome printed_numbers sample_network initial_app (js "1001")
           [str "p1"; str "p2"] [0; 1; 0; 1; 0; 1; 0; 1]
           eq_refl Htext eq_refl eq_refl).
Defined.

(** The hypothesis of X13 holds of a collection without features. *)
Lemma geojsonToGpx_type_errors_witness :
  prop (obj [("type", str "FeatureCollection")]%string) (js "type")
  = Ok (VStr (js "FeatureCollection"))
  /\ geojsonToGpx (obj [("type", str "FeatureCollection")]%string)
       (js "Cacilhas") (js "Lisboa")
     = Throw TypeError.
Proof.
  split; [reflexivity|].
  exact (proj1 (@geojsonToGpx_type_errors printed_numbers
                  (obj [("type", str "FeatureCollection")]%string)
                  (js "Cacilhas") (js "Lisboa") eq_refl)
           VUndefined eq_refl eq_refl).
Defined.
